(** * Facial-sensing biomarkers: segmentation and aggregation of window labels

    A shallow embedding of [utils/preprocessing.py], [utils/count.py],
    [utils/duration.py], [utils/intensity.py] and [utils/model.py].

    Modelling conventions.
    - A pandas cell is a [cell]: a Python int, a finite float (as the rational
      it denotes; comparisons and [max] are exact, sums, means and quotients
      are taken without rounding), a string, or the missing value [NaN].
    - A [DataFrame] is column-major: the named columns in order, every column
      as long as the others, names pairwise distinct.  A frame that carries an
      index (the result of [set_index] or of a [groupby]) is represented with
      the index as its leading column, which is what [reset_index] makes of it.
    - Python exceptions are values of [exn]; a function that may raise returns
      a [result].
    - A Python list that is passed by reference and mutated lives in a [heap]. *)

From Stdlib Require Uint63.
From Stdlib Require Import PrimFloat.
From Stdlib Require Import String ZArith QArith Qabs Lqa Bool Arith Lia List DecimalString.
Import ListNotations.

Local Open Scope string_scope.
Local Open Scope nat_scope.

(** ** Exceptions and results *)

Inductive exn : Type :=
| ValueError (msg : string)
| KeyError (key : string)
| TypeError (msg : string)
| IndexError (msg : string)
| AttributeError (msg : string)
| UnboundLocalError (name : string).

Definition result (A : Type) : Type := (exn + A)%type.

Definition Ok {A : Type} (a : A) : result A := inr a.
Definition Raise {A : Type} (e : exn) : result A := inl e.

Definition bind {A B : Type} (m : result A) (k : A -> result B) : result B :=
  match m with
  | inl e => inl e
  | inr a => k a
  end.

Notation "x <- m ;; k" := (bind m (fun x => k))
  (at level 61, m at next level, right associativity).

(** A loop that collects one result per element and stops at the first
    exception. *)
Fixpoint mapM {A B : Type} (f : A -> result B) (l : list A) : result (list B) :=
  match l with
  | [] => Ok []
  | a :: l' => b <- f a ;; bs <- mapM f l' ;; Ok (b :: bs)
  end.

Definition raises {A : Type} (m : result A) : Prop := exists e, m = inl e.

Definition str_of_nat (n : nat) : string := NilZero.string_of_uint (Nat.to_uint n).

(** ** Cells *)

Inductive cell : Type :=
| Int (z : Z)
| Float (q : Q)
| Str (s : string)
| NaN.

Definition to_number (c : cell) : option Q :=
  match c with
  | Int z => Some (inject_Z z)
  | Float q => Some q
  | Str _ | NaN => None
  end.

Definition is_nan (c : cell) : bool :=
  match c with NaN => true | _ => false end.

(** Python's [==] on scalars: numbers compare by value, strings by content,
    a number never equals a string, NaN equals nothing. *)
Definition cell_eqb (a b : cell) : bool :=
  match a, b with
  | Str x, Str y => String.eqb x y
  | _, _ =>
      match to_number a, to_number b with
      | Some x, Some y => Qeq_bool x y
      | _, _ => false
      end
  end.

(** Python's [!=]. *)
Definition cell_neb (a b : cell) : bool := negb (cell_eqb a b).

(** Sameness as pandas' hash tables see it ([unique], [groupby]): [==], and
    NaN is the same as NaN. *)
Definition cell_same (a b : cell) : bool :=
  match a, b with
  | NaN, NaN => true
  | _, _ => cell_eqb a b
  end.

(** The order pandas sorts group keys in: numbers by value, then strings,
    then NaN. *)
Definition cell_leb (a b : cell) : bool :=
  match a, b with
  | _, NaN => true
  | NaN, _ => false
  | Str x, Str y => String.leb x y
  | Str _, _ => false
  | _, Str _ => true
  | _, _ =>
      match to_number a, to_number b with
      | Some x, Some y => Qle_bool x y
      | _, _ => false
      end
  end.

(** ** Generic list helpers *)

(** First occurrences, in order of appearance ([pandas.unique]). *)
Fixpoint unique_by {A : Type} (same : A -> A -> bool) (l : list A) : list A :=
  match l with
  | [] => []
  | x :: l' => x :: filter (fun y => negb (same y x)) (unique_by same l')
  end.

Fixpoint insert_sorted {A : Type} (leb : A -> A -> bool) (x : A) (l : list A) : list A :=
  match l with
  | [] => [x]
  | y :: l' => if leb x y then x :: y :: l' else y :: insert_sorted leb x l'
  end.

Definition sort {A : Type} (leb : A -> A -> bool) (l : list A) : list A :=
  fold_right (insert_sorted leb) [] l.

(** [seq[s:e]] for [0 <= s], [0 <= e]. *)
Definition slice {A : Type} (s e : nat) (l : list A) : list A :=
  firstn (e - s) (skipn s l).

Fixpoint Qsum (l : list Q) : Q :=
  match l with
  | [] => 0%Q
  | x :: l' => (x + Qsum l')%Q
  end.

Definition Qmean (l : list Q) : Q :=
  (Qsum l / inject_Z (Z.of_nat (length l)))%Q.

Definition Qmaxb (x y : Q) : Q := if Qle_bool x y then y else x.

(** ** [groupby]: keys sorted, rows with a missing key dropped *)

Section GroupBy.
Context {A K : Type}.
Variable key_same : K -> K -> bool.
Variable key_leb : K -> K -> bool.
Variable key_missing : K -> bool.
Variable key_of : A -> K.

Definition group_keys (rows : list A) : list K :=
  sort key_leb
    (unique_by key_same (filter (fun k => negb (key_missing k)) (map key_of rows))).

Definition group_by (rows : list A) : list (K * list A) :=
  map (fun k => (k, filter (fun r => key_same (key_of r) k) rows)) (group_keys rows).
End GroupBy.

(** Keys of a [groupby] on several columns: tuples, compared left to right. *)
Fixpoint key_same (a b : list cell) : bool :=
  match a, b with
  | [], [] => true
  | x :: a', y :: b' => cell_same x y && key_same a' b'
  | _, _ => false
  end.

Fixpoint key_leb (a b : list cell) : bool :=
  match a, b with
  | [], _ => true
  | _ :: _, [] => false
  | x :: a', y :: b' => if cell_same x y then key_leb a' b' else cell_leb x y
  end.

Definition key_missing (k : list cell) : bool := existsb is_nan k.

(** ** Series and dicts *)

(** A Series with a unique index: (index, value) pairs. *)
Definition Series : Type := list (cell * cell).

Fixpoint series_get (s : Series) (k : cell) : option cell :=
  match s with
  | [] => None
  | (k', v) :: s' => if cell_same k' k then Some v else series_get s' k
  end.

(** [s.reindex(labels, fill_value=fill)]. *)
Definition reindex (labels : list cell) (fill : cell) (s : Series) : Series :=
  map (fun l => (l, match series_get s l with Some v => v | None => fill end)) labels.

(** A Python dict, as its items in insertion order. *)
Definition dict : Type := list (cell * cell).

Definition dict_get (d : dict) (k : cell) : option cell := series_get d k.
Definition dict_values (d : dict) : list cell := map snd d.

(** The value [Series.map(d)] puts where the label [k] was. *)
Definition dict_map (d : dict) (k : cell) : cell :=
  match dict_get d k with
  | Some v => v
  | None => NaN
  end.

(** ** Frames *)

Definition DataFrame : Type := list (string * list cell).

Definition columns (df : DataFrame) : list string := map fst df.

Definition nrows (df : DataFrame) : nat :=
  match df with
  | [] => 0
  | (_, c) :: _ => length c
  end.

(** [label in data.columns]. *)
Definition has_column (df : DataFrame) (name : string) : bool :=
  existsb (String.eqb name) (columns df).

(** [data.columns.get_loc(name)]. *)
Fixpoint get_loc (names : list string) (name : string) : option nat :=
  match names with
  | [] => None
  | n :: names' =>
      if String.eqb n name then Some 0 else option_map S (get_loc names' name)
  end.

(** [data[name]]. *)
Fixpoint column (df : DataFrame) (name : string) : option (list cell) :=
  match df with
  | [] => None
  | (n, c) :: df' => if String.eqb n name then Some c else column df' name
  end.

(** [data.iloc[s:e, j]]. *)
Definition iloc (df : DataFrame) (s e j : nat) : list cell :=
  slice s e (snd (nth j df ("", []))).

(** [col[s:e] = v] on one column. *)
Definition set_range (s e : nat) (v : cell) (col : list cell) : list cell :=
  (firstn s col ++ map (fun _ => v) (slice s e col) ++ skipn (Nat.max s e) col)%list.

(** [data.iloc[s:e, j] = v]. *)
Definition iloc_set (df : DataFrame) (s e j : nat) (v : cell) : result DataFrame :=
  match nth_error df j with
  | None => Raise (IndexError "iloc cannot enlarge its target object")
  | Some (n, c) => Ok (firstn j df ++ (n, set_range s e v c) :: skipn (S j) df)%list
  end.

Definition take (idx : list nat) (col : list cell) : list cell :=
  map (fun i => nth i col NaN) idx.

Definition take_rows (df : DataFrame) (idx : list nat) : DataFrame :=
  map (fun nc => (fst nc, take idx (snd nc))) df.

(** The columns named [names], or the [KeyError] of the first one absent. *)
Definition get_columns (df : DataFrame) (names : list string) : result (list (list cell)) :=
  mapM (fun n => match column df n with
                 | Some c => Ok c
                 | None => Raise (KeyError n)
                 end) names.

(** [pd.concat(frames)] of frames with the columns of the first. *)
Definition concat_frames (frames : list DataFrame) : DataFrame :=
  match frames with
  | [] => []
  | f0 :: _ =>
      map (fun n => (n, flat_map (fun f => match column f n with
                                           | Some c => c
                                           | None => repeat NaN (nrows f)
                                           end) frames)) (columns f0)
  end.

(** What a Python object is to [isinstance(data, pd.DataFrame)]. *)
Inductive pyobj : Type :=
| PyDataFrame (df : DataFrame)
| PyOther.

(** ** [utils/preprocessing.py] *)

(** Duration of [n_windows] windows in seconds.  The defaults of the source
    are [n_win_size = 25] and [n_win_slide = 5]. *)
Definition windows_to_seconds (n_windows n_win_size n_win_slide : Q) : Q :=
  let n_duration := (n_win_size + n_win_slide * (n_windows - 1))%Q in
  let t_duration := (n_duration / 50)%Q in
  t_duration.

Definition windows_to_seconds_default (n_windows : Q) : Q :=
  windows_to_seconds n_windows 25 5.

(** The same function on Python ints, with the quotient as the IEEE double
    Python computes (for durations below 2^53 samples, which convert to a
    double exactly). *)
Definition float_of_Z (z : Z) : float :=
  if (z <? 0)%Z then PrimFloat.opp (PrimFloat.of_uint63 (Uint63.of_Z (- z)))
  else PrimFloat.of_uint63 (Uint63.of_Z z).

Definition windows_to_seconds_float (n_windows n_win_size n_win_slide : Z) : float :=
  let n_duration := (n_win_size + n_win_slide * (n_windows - 1))%Z in
  let t_duration := PrimFloat.div (float_of_Z n_duration) (float_of_Z 50) in
  t_duration.

(** [np.flatnonzero]: the positions of the true entries, counted from [i]. *)
Fixpoint flatnonzero_from (i : nat) (bs : list bool) : list nat :=
  match bs with
  | [] => []
  | b :: bs' =>
      if b then i :: flatnonzero_from (S i) bs' else flatnonzero_from (S i) bs'
  end.

Definition flatnonzero (bs : list bool) : list nat := flatnonzero_from 0 bs.

(** [values[:-1] != values[1:]], elementwise. *)
Definition adjacent_neq (values : list cell) : list bool :=
  map (fun p => cell_neb (fst p) (snd p)) (combine (removelast values) (tl values)).

Definition find_subsegments_indices (values : list cell) : result (list (nat * nat)) :=
  if Nat.eqb (length values) 0 then
    Raise (ValueError "Segments cannot be extracted from an empty list")
  else
    let changes := map S (flatnonzero (adjacent_neq values)) in
    Ok (combine (0 :: changes) (changes ++ [length values])%list).

(** The loop of [get_segment_label]: one label per non-empty selection, the
    first of its unique values. *)
Definition segment_labels (df : DataFrame) (j : nat) (segments : list (nat * nat)) : list cell :=
  flat_map (fun segment =>
              let sel_label := iloc df (fst segment) (snd segment) j in
              if Nat.eqb (length sel_label) 0 then []
              else firstn 1 (unique_by cell_same sel_label)) segments.

Definition get_segment_label (data : pyobj) (segments : list (nat * nat))
    (label_column : string) : result (list cell) :=
  match data with
  | PyOther => Raise (ValueError "Input data type is not appropriate.")
  | PyDataFrame df =>
      (* [iter(segments)] succeeds on every list of rows *)
      match get_loc (columns df) label_column with
      | None => Raise (ValueError "Target column not found in DataFrame")
      | Some j => Ok (segment_labels df j segments)
      end
  end.

(** A row of the segment table. *)
Record Segment : Type := mkSegment {
  start : nat;
  end_ : nat;
  duration : nat;
  label : cell
}.

Definition set_label (s : Segment) (l : cell) : Segment :=
  mkSegment (start s) (end_ s) (duration s) l.

Definition segment_rows (segments : list (nat * nat)) (labels : list cell) : list Segment :=
  map (fun sl => mkSegment (fst (fst sl)) (snd (fst sl))
                           (snd (fst sl) - fst (fst sl)) (snd sl))
      (combine segments labels).

Definition InvalidInputError : exn := ValueError "Input type is not appropriate.".
Definition ColumnNotFoundError : exn := ValueError "Target column not found in DataFrame".
Definition EmptyInputError : exn :=
  ValueError "Segments cannot be extracted from an empty list".
Definition LengthMismatchError (n_segments n_labels : nat) : exn :=
  ValueError ("Length mismatch between segments " ++ str_of_nat n_segments
              ++ " and labels " ++ str_of_nat n_labels).

Definition find_label_segments (data : pyobj) (label_column : string)
    : result (list Segment) :=
  match data with
  | PyOther => Raise InvalidInputError
  | PyDataFrame df =>
      if negb (has_column df label_column) then Raise ColumnNotFoundError
      else
        match column df label_column with
        | None => Raise (KeyError label_column)
        | Some values =>
            segments <- find_subsegments_indices values ;;
            labels <- get_segment_label data segments label_column ;;
            if negb (Nat.eqb (length labels) (length segments)) then
              Raise (LengthMismatchError (length segments) (length labels))
            else Ok (segment_rows segments labels)
        end
  end.

(** ** Pieces shared by the aggregators *)

(** [segments[segments["label"] != 0]]. *)
Definition drop_background (segments : list Segment) : list Segment :=
  filter (fun s => cell_neb (label s) (Int 0)) segments.

(** [segments["label"] = segments["label"].map(mapping)] when a mapping is
    given. *)
Definition map_labels (mapping : option dict) (segments : list Segment) : list Segment :=
  match mapping with
  | Some m => map (fun s => set_label s (dict_map m (label s))) segments
  | None => segments
  end.

(** [list(mapping.values())], or [[1, 2, 3]]. *)
Definition canonical_labels (mapping : option dict) : list cell :=
  match mapping with
  | Some m => dict_values m
  | None => [Int 1; Int 2; Int 3]
  end.

(** [segments.groupby("label")]. *)
Definition groupby_label (segments : list Segment) : list (cell * list Segment) :=
  group_by cell_same cell_leb is_nan label segments.

(** ** [utils/count.py] *)

Definition get_num_expressions (results : DataFrame) (mapping : option dict)
    (group : bool) : result DataFrame :=
  segments <- find_label_segments (PyDataFrame results) "pred" ;;
  let segments := drop_background segments in
  let segments := map_labels mapping segments in
  let labels := canonical_labels mapping in
  if group then
    let counts :=
      map (fun kg => (fst kg, Int (Z.of_nat (length (snd kg))))) (groupby_label segments) in
    let counts := reindex labels (Int 0) counts in
    Ok [("label", map fst counts); ("expression_count", map snd counts)]
  else
    Ok [("expression_count", [Int (Z.of_nat (length segments))])].

(** ** [utils/duration.py] *)

Definition seconds_of (s : Segment) : Q :=
  windows_to_seconds_default (inject_Z (Z.of_nat (duration s))).

Definition mean_duration (g : list Segment) : Q :=
  Qmean (map (fun s => inject_Z (Z.of_nat (duration s))) g).

Definition get_expression_duration (results : DataFrame) (mapping : option dict)
    (average group : bool) : result DataFrame :=
  segments <- find_label_segments (PyDataFrame results) "pred" ;;
  let segments := drop_background segments in
  let all_labels := canonical_labels mapping in
  if negb (Nat.eqb (length segments) 0) then
    if average then
      let segments := map_labels mapping segments in
      if group then
        let durations :=
          map (fun kg => (fst kg, Float (windows_to_seconds_default (mean_duration (snd kg)))))
              (groupby_label segments) in
        let result := reindex all_labels (Int 0) durations in
        Ok [("label", map fst result); ("duration", map snd result)]
      else
        let durations := Qmean (map seconds_of segments) in
        Ok [("duration", [Float durations])]
    else
      let durations := map (fun s => Float (seconds_of s)) segments in
      let segments := map_labels mapping segments in
      let labels := map label segments in
      Ok [("duration", durations); ("label", labels)]
  else
    if group then
      Ok [("duration", repeat (Int 0) (length all_labels)); ("label", all_labels)]
    else
      Ok [("duration", [Int 0])].

(** ** [utils/intensity.py] *)

(** [Series.max()] of a numeric selection: NaN is skipped, [None] stands for
    the NaN of an empty or all-NaN selection; a string cannot be compared with
    the threshold. *)
Fixpoint series_max (l : list cell) : result (option Q) :=
  match l with
  | [] => Ok None
  | c :: l' =>
      m <- series_max l' ;;
      match c with
      | Str _ => Raise (TypeError "'>' not supported between instances of 'str' and 'int'")
      | NaN => Ok m
      | _ =>
          match to_number c, m with
          | Some x, Some y => Ok (Some (Qmaxb x y))
          | Some x, None => Ok (Some x)
          | None, _ => Ok m
          end
      end
  end.

(** The representative intensity of one segment row. *)
Definition segment_intensity (intensity_data : DataFrame) (row : Segment)
    : result (option Q) :=
  match column intensity_data "Intensity" with
  | None => Raise (KeyError "Intensity")
  | Some col => series_max (slice (start row) (end_ row) col)
  end.

(** [intensity > intensity_threshold]; false for NaN. *)
Definition exceeds (intensity : option Q) (intensity_threshold : Q) : bool :=
  match intensity with
  | Some x => negb (Qle_bool x intensity_threshold)
  | None => false
  end.

(** The list the loop of [get_intensities_per_segments] builds. *)
Fixpoint intensities_per_segment (segments : list Segment) (intensity_data : DataFrame)
    (intensity_threshold : Q) : result (list Q) :=
  match segments with
  | [] => Ok []
  | row :: segments' =>
      intensity <- segment_intensity intensity_data row ;;
      rest <- intensities_per_segment segments' intensity_data intensity_threshold ;;
      match intensity with
      | Some x => if exceeds intensity intensity_threshold then Ok (x :: rest) else Ok rest
      | None => Ok rest
      end
  end.

Definition get_intensities_per_segments (segments : list Segment)
    (intensity_data : DataFrame) (intensity_threshold : Q) : result cell :=
  l <- intensities_per_segment segments intensity_data intensity_threshold ;;
  match l with
  | [] => Ok (Int 0)
  | _ :: _ => Ok (Float (Qmean l))
  end.

(** [get_mean_intensities] returns a number or a frame. *)
Inductive intensity_result : Type :=
| Scalar (v : cell)
| PerLabel (df : DataFrame).

(** When every label of [segments] is missing after the mapping, the
    [groupby] has no group (rows with a NaN key are dropped).  pandas'
    [DataFrameGroupBy.apply] then has no result to assemble and returns an
    empty frame with the columns of [segments] instead of a Series, so that
    [reset_index()] and the assignment of the two column names
    ["label", "Expression Intensity"] raise ValueError (which of the two
    raises, and with which message, depends on the pandas version). *)
Definition get_mean_intensities (intensity_data : DataFrame) (mapping : option dict)
    (group_labels : bool) (intensity_threshold : Q) (label_col : string)
    : result intensity_result :=
  let all_labels := canonical_labels mapping in
  segments <- find_label_segments (PyDataFrame intensity_data) label_col ;;
  let segments := drop_background segments in
  if Nat.eqb (length segments) 0 then
    if group_labels then
      Ok (PerLabel [("label", all_labels);
                    ("Expression Intensity", repeat (Int 0) (length all_labels))])
    else Ok (Scalar (Int 0))
  else
    let segments := map_labels mapping segments in
    if group_labels then
      match groupby_label segments with
      | [] => Raise (ValueError "Length mismatch")
      | groups =>
          mean_intensities <-
            mapM (fun kx =>
                    v <- get_intensities_per_segments (snd kx) intensity_data
                           intensity_threshold ;;
                    Ok (fst kx, v)) groups ;;
          let mean_intensities := reindex all_labels (Int 0) mean_intensities in
          Ok (PerLabel [("label", map fst mean_intensities);
                        ("Expression Intensity", map snd mean_intensities)])
      end
    else
      (* the call of the source passes no threshold: the default 0 applies *)
      mean_intensities <- get_intensities_per_segments segments intensity_data 0 ;;
      Ok (Scalar mean_intensities).

(** ** [utils/model.py] *)

Definition filter_predictions (results : DataFrame) (window_threshold : Z)
    : result DataFrame :=
  let filtered_results := results in
  segments <- find_label_segments (PyDataFrame results) "pred" ;;
  let segments := drop_background segments in
  let segments :=
    filter (fun s => Z.leb (Z.of_nat (duration s)) window_threshold) segments in
  fold_left (fun acc row =>
               filtered_results <- acc ;;
               iloc_set filtered_results (start row) (end_ row) 0 (Int 0))
            segments (Ok filtered_results).

(** ** [DataFrame.groupby] *)

(** [data.groupby(keys)]: the groups in key order, each with its key tuple
    and its rows. *)
Definition groupby (data : DataFrame) (keys : list string)
    : result (list (list cell * DataFrame)) :=
  match keys with
  | [] => Raise (ValueError "No group keys passed!")
  | _ :: _ =>
      cols <- get_columns data keys ;;
      let key_of := fun i => map (fun c => nth i c NaN) cols in
      Ok (map (fun kg => (fst kg, take_rows data (snd kg)))
              (group_by key_same key_leb key_missing key_of (seq 0 (nrows data))))
  end.

(** The key columns that [reset_index] puts in front of a group's [n] result
    rows. *)
Definition key_columns (keys : list string) (k : list cell) (n : nat) : DataFrame :=
  map (fun nk => (fst nk, repeat (snd nk) n)) (combine keys k).

(** [data.groupby(keys).apply(f).reset_index()] for an [f] that returns an
    indexed frame.  Without any group, [apply] returns an empty frame that
    still has the key columns, and [reset_index] cannot insert them again. *)
Definition groupby_apply (data : DataFrame) (keys : list string)
    (f : DataFrame -> result DataFrame) : result DataFrame :=
  groups <- groupby data keys ;;
  applied <- mapM (fun kg => r <- f (snd kg) ;; Ok (fst kg, r)) groups ;;
  match applied with
  | [] => Raise (ValueError ("cannot insert " ++ last keys "" ++ ", already exists"))
  | _ :: _ =>
      Ok (concat_frames
            (map (fun kr => (key_columns keys (fst kr) (nrows (snd kr)) ++ snd kr)%list)
                 applied))
  end.

(** ** [count.normalize_data] *)

(** A scikit-learn scaler works column by column: [sc fit xs] is the column
    [xs] transformed by the scaler fitted on the column [fit]. *)
Definition Scaler : Type := list Q -> list Q -> list Q.

Definition fit_transform (scaler : Scaler) (xs : list Q) : list Q := scaler xs xs.

(** A column as the float array scikit-learn validates. *)
Definition as_floats (col : list cell) : result (list Q) :=
  mapM (fun c => match to_number c with
                 | Some x => Ok x
                 | None => Raise (ValueError "could not convert to float")
                 end) col.

(** [df[name] = col] for an existing column. *)
Fixpoint set_column (df : DataFrame) (name : string) (col : list cell) : DataFrame :=
  match df with
  | [] => [(name, col)]
  | (n, c) :: df' =>
      if String.eqb n name then (n, col) :: df' else (n, c) :: set_column df' name col
  end.

(** The inner function of [normalize_data].  With [fit_all_cols] the scaler
    is fitted on the data columns side by side and then applied to them,
    which for a column-wise scaler is again each column fitted on itself. *)
Definition normalize_group (scaler : option Scaler) (data_cols : list string)
    (fit_all_cols : bool) (group : DataFrame) : result DataFrame :=
  match scaler with
  | None => Raise (AttributeError "'NoneType' object has no attribute 'fit_transform'")
  | Some sc =>
      fold_left
        (fun acc col =>
           g <- acc ;;
           match column group col with
           | None => Raise (KeyError col)
           | Some c =>
               xs <- as_floats c ;;
               let ys := if fit_all_cols then sc xs xs else fit_transform sc xs in
               if Nat.eqb (length ys) (length xs) then Ok (set_column g col (map Float ys))
               else Raise (ValueError "Length of values does not match length of index")
           end)
        data_cols (Ok group)
  end.

(** The groups come back one after the other, in key order, with a fresh
    index ([reset_index(drop=True)]). *)
Definition normalize_data (data : DataFrame) (scaler : option Scaler)
    (grouping_columns data_cols : list string) (fit_all_cols : bool) : result DataFrame :=
  groups <- groupby data grouping_columns ;;
  normalized <- mapM (fun kg => normalize_group scaler data_cols fit_all_cols (snd kg)) groups ;;
  match normalized with
  | [] => Ok (take_rows data [])
  | _ :: _ => Ok (concat_frames normalized)
  end.

(** [data.groupby(keys)[value].sum().reset_index()]. *)
Definition groupby_sum (data : DataFrame) (keys : list string) (value : string)
    : result DataFrame :=
  groups <- groupby data keys ;;
  match column data value with
  | None => Raise (KeyError ("Column not found: " ++ value))
  | Some _ =>
      sums <- mapM (fun kg =>
                      match column (snd kg) value with
                      | None => Raise (KeyError value)
                      | Some c => xs <- as_floats (filter (fun x => negb (is_nan x)) c) ;;
                                  Ok (Float (Qsum xs))
                      end) groups ;;
      Ok (map (fun j => (nth j keys "", map (fun kg => nth j (fst kg) NaN) groups))
              (seq 0 (length keys))
          ++ [(value, sums)])%list
  end.

(** ** List objects *)

(** The Python lists the functions receive by reference.  Address 0 holds the
    list created once, at definition time, for the default value of
    [grouping_columns]. *)
Definition loc : Type := nat.
Definition heap : Type := list (list string).

Definition default_grouping_columns : loc := 0.
Definition initial_heap : heap := [["Group"; "Subject"; "Video"]].

(** The list at an allocated address. *)
Definition deref (h : heap) (l : loc) : list string := nth l h [].

Fixpoint update (h : heap) (l : loc) (v : list string) : heap :=
  match h, l with
  | [], _ => []
  | _ :: h', 0 => v :: h'
  | x :: h', S l' => x :: update h' l' v
  end.

(** [lst.append(x)]. *)
Definition append (h : heap) (l : loc) (x : string) : heap :=
  update h l (deref h l ++ [x])%list.

(** [x in lst]. *)
Definition contains (lst : list string) (x : string) : bool :=
  existsb (String.eqb x) lst.

(** ** [count.get_grouped_num_expressions] *)

(** [grouping_columns] is the address of the caller's list, or [None] when
    the caller leaves the default.  The result comes with the heap the call
    leaves behind. *)
Definition get_grouped_num_expressions (results : DataFrame)
    (grouping_columns : option loc) (mapping : option dict)
    (group_labels normalize : bool) (scaler : option Scaler) (h : heap)
    : result DataFrame * heap :=
  let grouping_columns :=
    match grouping_columns with
    | Some l => l
    | None => default_grouping_columns
    end in
  if normalize then
    let normalization_grouping_cols :=
      if negb (contains (deref h grouping_columns) "Video")
      then Some (deref h grouping_columns ++ ["Video"])%list
      else None in
    match normalization_grouping_cols with
    | None => (Raise (UnboundLocalError "normalization_grouping_cols"), h)
    | Some normalization_grouping_cols =>
        match
          (grouped <- groupby_apply results normalization_grouping_cols
                        (fun x => get_num_expressions x mapping group_labels) ;;
           normalize_data grouped scaler ["Subject"] ["expression_count"] false)
        with
        | inl e => (inl e, h)
        | inr normalized_data =>
            let h' := if group_labels then append h grouping_columns "label" else h in
            (groupby_sum normalized_data (deref h' grouping_columns) "expression_count", h')
        end
    end
  else
    (groupby_apply results (deref h grouping_columns)
       (fun x => get_num_expressions x mapping group_labels), h).

(** ** [model.generate_predictions] *)

(** A trained classifier.  [predict] returns one label per row of the frame
    it is given; [predict_proba] returns the class probabilities, held here
    class by class (one list per class), which is what iterating over
    [probas.T] yields. *)
Record Classifier : Type := mkClassifier {
  predict : DataFrame -> list cell;
  predict_proba : DataFrame -> list (list Q)
}.

Definition default_info_columns : list string :=
  ["File"; "Task"; "Subject"; "Dataset"; "Video"; "Oops"].

(** [features.drop(labels, axis=1)]: KeyError when a label is not a column. *)
Definition drop_columns (df : DataFrame) (labels : list string) : result DataFrame :=
  match find (fun n => negb (has_column df n)) labels with
  | Some n => Raise (KeyError n)
  | None => Ok (filter (fun nc => negb (contains labels (fst nc))) df)
  end.

(** [pd.DataFrame(d)] for a dict [d] of columns, which must be equally long. *)
Definition frame_of_dict (d : DataFrame) : result DataFrame :=
  if forallb (fun nc => Nat.eqb (length (snd nc)) (nrows d)) d then Ok d
  else Raise (ValueError "All arrays must be of the same length").

(** [df[name] = values] for an array [values]. *)
Definition assign_column (df : DataFrame) (name : string) (values : list cell)
    : result DataFrame :=
  if Nat.eqb (length values) (nrows df) then Ok (set_column df name values)
  else Raise (ValueError "Length of values does not match length of index").

(** The dict [{"pred": pred, **info_results}]: "pred" first, then the info
    columns in order; a key that comes again replaces the value in place. *)
Definition prediction_dict (pred : list cell) (info_results : list (string * list cell))
    : DataFrame :=
  fold_left (fun d nc => set_column d (fst nc) (snd nc)) info_results [("pred", pred)].

Definition generate_predictions (features : DataFrame) (model : Classifier)
    (info_columns : list string) : result DataFrame :=
  test_X <- drop_columns features info_columns ;;
  let pred := predict model test_X in
  let probas := predict_proba model test_X in
  info_results <-
    mapM (fun col => match column features col with
                     | Some c => Ok (col, c)
                     | None => Raise (KeyError col)
                     end) info_columns ;;
  df <- frame_of_dict (prediction_dict pred info_results) ;;
  fold_left (fun acc ic =>
               df <- acc ;;
               assign_column df ("proba_" ++ str_of_nat (fst ic)) (map Float (snd ic)))
            (combine (seq 0 (length probas)) probas) (Ok df).

(** A classifier for the examples: it predicts the class 1 where the feature
    "f" is positive and 0 elsewhere, with probabilities 1 and 0. *)
Definition sign_classifier : Classifier :=
  let positive := fun c => match to_number c with
                           | Some x => negb (Qle_bool x 0)
                           | None => false
                           end in
  let feature := fun X => match column X "f" with Some c => c | None => [] end in
  mkClassifier
    (fun X => map (fun c => if positive c then Int 1 else Int 0) (feature X))
    (fun X => [map (fun c => if positive c then 0%Q else 1%Q) (feature X);
               map (fun c => if positive c then 1%Q else 0%Q) (feature X)]).

(** Features of six windows of one video. *)
Definition example_features : DataFrame :=
  [("Subject", [Int 7; Int 7; Int 7; Int 7; Int 7; Int 7]);
   ("f", [Float (3 # 10); Float (-1 # 10); Float (-2 # 10);
          Float (4 # 10); Float (5 # 10); Float (6 # 10)]);
   ("Video", [Str "a"; Str "a"; Str "a"; Str "a"; Str "a"; Str "a"])].

(** ** Shapes used to state the properties *)

(** A list of half-open ranges that tiles [[a, b)]: every range starts where
    the previous one ended, none is empty. *)
Fixpoint chain (a : nat) (segs : list (nat * nat)) (b : nat) : Prop :=
  match segs with
  | [] => a = b
  | (s, e) :: rest => s = a /\ s < e /\ chain e rest b
  end.

(** Strictly increasing lists of positions, all above [a]. *)
Fixpoint increasing_from (a : nat) (l : list nat) : Prop :=
  match l with
  | [] => True
  | c :: l' => a < c /\ increasing_from c l'
  end.

(** The segment table of the ranges [segs] over the label column [values]:
    every row carries the label found at its start. *)
Definition rows_of (values : list cell) (segs : list (nat * nat)) : list Segment :=
  map (fun se => mkSegment (fst se) (snd se) (snd se - fst se) (nth (fst se) values NaN))
      segs.

(** The rows a per-label aggregate of the label [l] is computed from: the
    segments whose (mapped) label is [l].  A missing label is in no group. *)
Definition group_of (segments : list Segment) (l : cell) : list Segment :=
  if is_nan l then [] else filter (fun s => cell_same (label s) l) segments.

(** The value [reindex] gives the label [l] after a [groupby("label")] whose
    groups are aggregated by [f]. *)
Definition per_label (f : list Segment -> cell) (fill : cell)
    (segments : list Segment) (l : cell) : cell :=
  match group_of segments l with
  | [] => fill
  | _ :: _ => f (group_of segments l)
  end.

(** The segments an aggregator works on: background dropped, labels mapped. *)
Definition qualifying (mapping : option dict) (rows : list Segment) : list Segment :=
  map_labels mapping (drop_background rows).

(** A column without strings. *)
Definition numeric (col : list cell) : Prop := forall s, ~ In (Str s) col.

(** The number [get_intensities_per_segments] returns when it returns. *)
Definition intensity_value (intensity_data : DataFrame) (intensity_threshold : Q)
    (segments : list Segment) : cell :=
  match get_intensities_per_segments segments intensity_data intensity_threshold with
  | inr v => v
  | inl _ => NaN
  end.

(** A per-label table: the two columns "label" and [value_column], exactly
    one row per label of [labels] in that order, the value 0 wherever no
    segment of [segments] bears the label. *)
Definition zero_filled (out : DataFrame) (value_column : string) (labels : list cell)
    (segments : list Segment) : Prop :=
  length out = 2 /\
  column out "label" = Some labels /\
  exists values,
    column out value_column = Some values /\
    length values = length labels /\
    forall i l, nth_error labels i = Some l -> group_of segments l = [] ->
                nth_error values i = Some (Int 0).

(** Scenario A of the specification. *)
Definition scenario_A : DataFrame :=
  [("pred", [Int 0; Int 0; Int 1; Int 1; Int 1; Int 0; Int 2; Int 2])].

(** Scenario C of the specification: one expression segment [[2, 5)] whose
    peak intensity is 0.9. *)
Definition scenario_C : DataFrame :=
  [("pred", [Int 0; Int 0; Int 1; Int 1; Int 1; Int 0]);
   ("Intensity", [Float (1 # 10); Float (1 # 10); Float (9 # 10);
                  Float (3 # 10); Float (2 # 10); Float (1 # 10)])].

(** Scenario D of the specification: background only. *)
Definition scenario_D : DataFrame := [("pred", [Int 0; Int 0; Int 0; Int 0])].

Definition mapping_ABC : dict := [(Int 1, Str "A"); (Int 2, Str "B"); (Int 3, Str "C")].

(** A mapping that omits the label 1. *)
Definition mapping_B : dict := [(Int 2, Str "B")].

(** A mapping that omits the label 2. *)
Definition mapping_AC : dict := [(Int 1, Str "A"); (Int 3, Str "C")].

(** Predictions of two subjects of one group, over two videos, with "pred"
    in front as [generate_predictions] builds it. *)
Definition example_results : DataFrame :=
  [("pred", [Int 1; Int 1; Int 0; Int 2; Int 1; Int 0]);
   ("Group", [Str "g"; Str "g"; Str "g"; Str "g"; Str "g"; Str "g"]);
   ("Subject", [Int 2; Int 2; Int 2; Int 1; Int 1; Int 1]);
   ("Video", [Str "b"; Str "b"; Str "a"; Str "a"; Str "a"; Str "a"])].

(** A frame whose "pred" column is not the first one. *)
Definition subject_first : DataFrame :=
  [("Subject", [Int 7; Int 7; Int 7]); ("pred", [Int 1; Int 0; Int 0])].

(** scikit-learn's [MaxAbsScaler]: every value divided by the largest
    absolute value of the fitted column (by 1 when that is 0). *)
Definition MaxAbsScaler : Scaler :=
  fun fit xs =>
    let max_abs := fold_right (fun x m => Qmaxb (Qabs x) m) 0%Q fit in
    let scale := if Qeq_bool max_abs 0 then 1%Q else max_abs in
    map (fun x => (x / scale)%Q) xs.

(** Whether window [i] lies in an expression segment of at most
    [window_threshold] windows. *)
Definition short_expression (rows : list Segment) (window_threshold : Z) (i : nat) : bool :=
  existsb (fun s => Nat.leb (start s) i && Nat.ltb i (end_ s))
          (filter (fun s => Z.leb (Z.of_nat (duration s)) window_threshold)
                  (drop_background rows)).

(** A caller's heap: the default list and a list [["Group", "Subject"]] of
    the caller at address 1. *)
Definition caller_heap : heap := [["Group"; "Subject"; "Video"]; ["Group"; "Subject"]].

(** * Properties *)

Section Segmentation.

Lemma flatnonzero_from_bounds i bs j :
  In j (flatnonzero_from i bs) -> i <= j < i + length bs.
Proof.
  revert i; induction bs as [|b bs IH]; simpl; intros i H; [contradiction|].
  destruct b; simpl in H.
  - destruct H as [<-|H]; [lia|]. apply IH in H; lia.
  - apply IH in H; lia.
Qed.

Lemma flatnonzero_from_spec i bs j :
  In j (flatnonzero_from i bs) <-> i <= j /\ nth (j - i) bs false = true.
Proof.
  revert i; induction bs as [|b bs IH]; simpl; intros i.
  - split; [contradiction|]. intros [_ H]. destruct (j - i); discriminate.
  - assert (Hrec : In j (flatnonzero_from (S i) bs) <->
                   S i <= j /\ nth (j - S i) bs false = true) by apply IH.
    destruct b; simpl; rewrite ?Hrec; split.
    + intros [<-|[Hle Hn]].
      * rewrite Nat.sub_diag; auto.
      * split; [lia|]. replace (j - i) with (S (j - S i)) by lia. exact Hn.
    + intros [Hle Hn]. destruct (Nat.eq_dec i j) as [->|Hne]; [now left|].
      right. split; [lia|]. replace (j - i) with (S (j - S i)) in Hn by lia. exact Hn.
    + intros [Hle Hn]. split; [lia|].
      replace (j - i) with (S (j - S i)) by lia. exact Hn.
    + intros [Hle Hn]. destruct (Nat.eq_dec i j) as [->|Hne].
      * rewrite Nat.sub_diag in Hn; discriminate.
      * split; [lia|]. replace (j - i) with (S (j - S i)) in Hn by lia. exact Hn.
Qed.

Lemma flatnonzero_from_increasing i bs :
  increasing_from i (map S (flatnonzero_from i bs)).
Proof.
  revert i; induction bs as [|b bs IH]; simpl; intros i; [exact I|].
  assert (Hweak : forall a l, increasing_from (S a) l -> increasing_from a l).
  { intros a [|c l]; simpl; [auto|]. intros [? ?]; split; [lia|assumption]. }
  destruct b; simpl.
  - split; [lia|]. apply IH.
  - apply Hweak, IH.
Qed.

Lemma chain_of_changes a ch n :
  increasing_from a ch -> (forall c, In c ch -> c < n) -> a < n ->
  chain a (combine (a :: ch) (ch ++ [n])) n.
Proof.
  revert a; induction ch as [|c ch IH]; simpl; intros a Hinc Hlt Han.
  - auto.
  - destruct Hinc as [Hac Hinc]. split; [reflexivity|]. split; [assumption|].
    apply IH; auto.
Qed.

Lemma chain_nonempty a segs b : a < b -> chain a segs b -> segs <> [].
Proof. destruct segs; simpl; [lia|discriminate]. Qed.

Lemma chain_le a segs b : chain a segs b -> a <= b.
Proof.
  revert a; induction segs as [|[s e] rest IH]; simpl; intros a H; [lia|].
  destruct H as (-> & Hlt & H). apply IH in H. lia.
Qed.

(** Every range of a tiling lies inside the tiled interval. *)
Lemma chain_In a segs b s e :
  chain a segs b -> In (s, e) segs -> a <= s /\ s < e /\ e <= b.
Proof.
  revert a; induction segs as [|[s' e'] rest IH]; simpl; intros a H Hin; [contradiction|].
  destruct H as (-> & Hlt & H). destruct Hin as [Heq|Hin].
  - inversion Heq; subst. apply chain_le in H. lia.
  - destruct (IH _ H Hin) as (? & ? & ?). lia.
Qed.

(** Ordered by start and non-overlapping: an earlier range ends before a
    later one starts. *)
Lemma chain_ordered a segs b k k' s e s' e' :
  chain a segs b ->
  nth_error segs k = Some (s, e) -> nth_error segs k' = Some (s', e') ->
  k < k' -> e <= s'.
Proof.
  revert a k k'; induction segs as [|[s0 e0] rest IH]; intros a k k' H Hk Hk' Hlt.
  - destruct k; discriminate.
  - simpl in H. destruct H as (-> & Hlt0 & H).
    destruct k' as [|k']; [lia|]. simpl in Hk'.
    destruct k as [|k]; simpl in Hk.
    + inversion Hk; subst. apply nth_error_In in Hk'.
      destruct (chain_In _ _ _ _ _ H Hk') as (? & ? & ?). lia.
    + eapply IH; eauto. lia.
Qed.

(** Exactly-once cover: each position of the interval is in one range. *)
Lemma chain_cover a segs b i :
  chain a segs b -> a <= i < b ->
  exists k s e, nth_error segs k = Some (s, e) /\ s <= i < e /\
    forall k' s' e', nth_error segs k' = Some (s', e') -> s' <= i < e' -> k' = k.
Proof.
  revert a; induction segs as [|[s0 e0] rest IH]; simpl; intros a H Hi; [lia|].
  destruct H as (-> & Hlt & H).
  destruct (Nat.lt_ge_cases i e0) as [Hie|Hie].
  - exists 0, a, e0. split; [reflexivity|]. split; [lia|].
    intros [|k'] s' e' Hk' Hin; [reflexivity|]. simpl in Hk'.
    apply nth_error_In in Hk'. destruct (chain_In _ _ _ _ _ H Hk') as (? & ? & ?). lia.
  - destruct (IH _ H) as (k & s & e & Hk & Hin & Huniq); [lia|].
    exists (S k), s, e. split; [exact Hk|]. split; [exact Hin|].
    intros [|k'] s' e' Hk' Hin'.
    + simpl in Hk'. inversion Hk'; subst. lia.
    + f_equal. eapply Huniq; eauto.
Qed.

Lemma removelast_length {A : Type} (v : A) (l : list A) :
  length (removelast (v :: l)) = length l.
Proof.
  revert v; induction l as [|w l IH]; intros v; [reflexivity|].
  change (removelast (v :: w :: l)) with (v :: removelast (w :: l)).
  cbn [length]. now rewrite IH.
Qed.

Lemma adjacent_neq_length values :
  length (adjacent_neq values) = pred (length values).
Proof.
  unfold adjacent_neq. rewrite length_map, length_combine.
  destruct values as [|v values]; [reflexivity|].
  rewrite removelast_length. cbn [tl length pred]. apply Nat.min_id.
Qed.

Lemma find_subsegments_indices_chain values :
  values <> [] ->
  exists segs, find_subsegments_indices values = Ok segs /\
               chain 0 segs (length values).
Proof.
  intros Hne. unfold find_subsegments_indices.
  destruct values as [|v values]; [congruence|]. cbn [length Nat.eqb].
  eexists; split; [reflexivity|].
  apply chain_of_changes.
  - apply flatnonzero_from_increasing.
  - intros c Hc. apply in_map_iff in Hc. destruct Hc as (j & <- & Hj).
    apply flatnonzero_from_bounds in Hj. rewrite adjacent_neq_length in Hj.
    simpl in Hj. lia.
  - lia.
Qed.

(** C1 (partition property): on every non-empty label sequence
    [find_subsegments_indices] returns a non-empty list of ranges that are
    contiguous (each starts where the previous one ended, the first at 0,
    the last ending at the length), none empty, ordered by start and
    non-overlapping, and that cover every position exactly once; a sequence
    of length 1 yields the single range [(0, 1)]. *)
Theorem find_subsegments_indices_partition (values : list cell) :
  values <> [] ->
  exists segs,
    find_subsegments_indices values = Ok segs /\
    segs <> [] /\
    chain 0 segs (length values) /\
    (forall k k' s e s' e',
        nth_error segs k = Some (s, e) -> nth_error segs k' = Some (s', e') ->
        k < k' -> s < s' /\ e <= s') /\
    (forall i, i < length values ->
        exists k s e, nth_error segs k = Some (s, e) /\ s <= i < e /\
          forall k' s' e', nth_error segs k' = Some (s', e') -> s' <= i < e' -> k' = k) /\
    (length values = 1 -> segs = [(0, 1)]).
Proof.
  intros Hne.
  destruct (find_subsegments_indices_chain values Hne) as (segs & Hrun & Hchain).
  exists segs. split; [exact Hrun|].
  assert (Hpos : 0 < length values) by (destruct values; [congruence|simpl; lia]).
  split; [eapply chain_nonempty; eauto|]. split; [exact Hchain|].
  split; [|split].
  - intros k k' s e s' e' Hk Hk' Hlt.
    pose proof (chain_ordered _ _ _ _ _ _ _ _ _ Hchain Hk Hk' Hlt) as Hle.
    apply nth_error_In in Hk.
    destruct (chain_In _ _ _ _ _ Hchain Hk) as (_ & Hse & _). lia.
  - intros i Hi. apply (chain_cover _ _ _ _ Hchain). lia.
  - intros H1. destruct values as [|v [|w values]]; try discriminate.
    cbv in Hrun. now inversion Hrun.
Qed.

Lemma find_subsegments_indices_partition_witness :
  exists segs,
    find_subsegments_indices [Int 0; Int 0; Int 1; Int 1; Int 1; Int 0; Int 2; Int 2]
      = Ok segs /\
    segs <> [] /\
    chain 0 segs 8 /\
    (forall k k' s e s' e',
        nth_error segs k = Some (s, e) -> nth_error segs k' = Some (s', e') ->
        k < k' -> s < s' /\ e <= s') /\
    (forall i, i < 8 ->
        exists k s e, nth_error segs k = Some (s, e) /\ s <= i < e /\
          forall k' s' e', nth_error segs k' = Some (s', e') -> s' <= i < e' -> k' = k) /\
    (8 = 1 -> segs = [(0, 1)]).
Proof.
  apply (find_subsegments_indices_partition
           [Int 0; Int 0; Int 1; Int 1; Int 1; Int 0; Int 2; Int 2]).
  discriminate.
Defined.

End Segmentation.

(** ** Equality of cells *)

Section CellEquality.

Lemma cell_same_refl a : cell_same a a = true.
Proof.
  destruct a; simpl; auto.
  - apply Qeq_bool_iff; reflexivity.
  - apply Qeq_bool_iff; reflexivity.
  - apply String.eqb_refl.
Qed.

Lemma cell_eqb_same a b : cell_eqb a b = true -> cell_same a b = true.
Proof. destruct a, b; simpl; auto. Qed.

Lemma cell_eqb_trans a b c :
  cell_eqb a b = true -> cell_eqb b c = true -> cell_eqb a c = true.
Proof.
  destruct a, b, c; simpl; try discriminate;
    rewrite ?Qeq_bool_iff, ?String.eqb_eq;
    try (intros H1 H2; rewrite H1; exact H2);
    try (intros; congruence).
Qed.

Lemma cell_same_eqb_trans a b c :
  cell_same a b = true -> cell_eqb b c = true -> cell_same a c = true.
Proof.
  intros Hab Hbc.
  assert (Hb : is_nan b = false) by (destruct b; [reflexivity..|discriminate]).
  assert (Hab' : cell_eqb a b = true).
  { destruct a, b; simpl in *; auto; discriminate. }
  apply cell_eqb_same. eapply cell_eqb_trans; eauto.
Qed.

Lemma cell_same_Int a z : cell_same a (Int z) = true -> forall y, a = Int y -> y = z.
Proof.
  intros H y ->. simpl in H. apply Qeq_bool_iff in H.
  unfold Qeq in H; simpl in H. lia.
Qed.

Lemma cell_same_sym a b : cell_same a b = cell_same b a.
Proof.
  destruct a, b; simpl; try reflexivity;
    try (apply eq_true_iff_eq; rewrite !Qeq_bool_iff; split; intros H; now symmetry).
  apply String.eqb_sym.
Qed.

Lemma cell_same_trans a b c :
  cell_same a b = true -> cell_same b c = true -> cell_same a c = true.
Proof.
  destruct a, b, c; simpl; try discriminate; try reflexivity;
    rewrite ?Qeq_bool_iff, ?String.eqb_eq;
    try (intros H1 H2; rewrite H1; exact H2);
    try (intros; congruence).
Qed.

Lemma cell_same_nan a b : cell_same a b = true -> is_nan a = is_nan b.
Proof. destruct a, b; simpl; auto; discriminate. Qed.

(** Cells that are the same select the same rows. *)
Lemma cell_same_congr a b c :
  cell_same a b = true -> cell_same c a = cell_same c b.
Proof.
  intros Hab. apply eq_true_iff_eq. split; intros H.
  - eapply cell_same_trans; eauto.
  - eapply cell_same_trans; eauto. now rewrite cell_same_sym.
Qed.

End CellEquality.

(** ** Sorting and first occurrences *)

Section SortUnique.
Context {A : Type}.

Lemma insert_sorted_In (leb : A -> A -> bool) x y l :
  In x (insert_sorted leb y l) <-> x = y \/ In x l.
Proof.
  induction l as [|z l IH]; simpl.
  - intuition congruence.
  - destruct (leb y z); simpl; [intuition congruence|].
    rewrite IH. intuition congruence.
Qed.

Lemma sort_In (leb : A -> A -> bool) x l : In x (sort leb l) <-> In x l.
Proof.
  unfold sort. induction l as [|y l IH]; simpl; [reflexivity|].
  rewrite insert_sorted_In, IH. intuition congruence.
Qed.

Lemma unique_by_In (same : A -> A -> bool) x l :
  In x (unique_by same l) -> In x l.
Proof.
  revert x; induction l as [|y l IH]; simpl; intros x; [auto|].
  intros [->|H]; [now left|]. apply filter_In in H. right. apply IH, H.
Qed.

(** Every element has a representative among the first occurrences. *)
Lemma unique_by_repr (same : A -> A -> bool) l :
  (forall a, same a a = true) ->
  (forall a b c, same a b = true -> same b c = true -> same a c = true) ->
  forall x, In x l -> exists y, In y (unique_by same l) /\ same x y = true.
Proof.
  intros Hrefl Htrans. induction l as [|z l IH]; simpl; intros x Hx; [contradiction|].
  destruct Hx as [->|Hx]; [exists x; auto|].
  destruct (IH _ Hx) as (y & Hy & Hxy).
  destruct (same y z) eqn:Hyz.
  - exists z. split; [now left|]. eapply Htrans; eauto.
  - exists y. split; [|exact Hxy]. right. apply filter_In. now rewrite Hyz.
Qed.

End SortUnique.

(** ** The segment table *)

Section LabelSegments.

Lemma adjacent_neq_cons v w l :
  adjacent_neq (v :: w :: l) = cell_neb v w :: adjacent_neq (w :: l).
Proof. reflexivity. Qed.

Lemma adjacent_neq_nth values i :
  S i < length values ->
  nth i (adjacent_neq values) false
  = cell_neb (nth i values NaN) (nth (S i) values NaN).
Proof.
  revert i; induction values as [|v values IH]; intros i Hi; [simpl in Hi; lia|].
  destruct values as [|w values]; [simpl in Hi; lia|].
  rewrite adjacent_neq_cons. destruct i as [|i]; [reflexivity|].
  cbn [nth]. rewrite IH by (simpl in *; lia). reflexivity.
Qed.

Lemma increasing_from_gt a ch c : increasing_from a ch -> In c ch -> a < c.
Proof.
  revert a; induction ch as [|c0 ch IH]; simpl; intros a H Hin; [contradiction|].
  destruct H as [Hlt H]. destruct Hin as [->|Hin]; [assumption|].
  specialize (IH _ H Hin). lia.
Qed.

(** No change point lies strictly inside a range. *)
Lemma no_change_inside a ch n s e :
  increasing_from a ch -> In (s, e) (combine (a :: ch) (ch ++ [n])) ->
  a <= s /\ forall j, s < j < e -> ~ In j ch.
Proof.
  revert a; induction ch as [|c ch IH]; simpl; intros a Hinc Hin.
  - destruct Hin as [Heq|[]]. inversion Heq; subst. split; [lia|]. auto.
  - destruct Hinc as [Hac Hinc]. destruct Hin as [Heq|Hin].
    + inversion Heq; subst. split; [lia|]. intros j Hj [->|Hjin]; [lia|].
      pose proof (increasing_from_gt _ _ _ Hinc Hjin). lia.
    + destruct (IH _ Hinc Hin) as [Hcs Hno]. split; [lia|].
      intros j Hj [->|Hjin]; [lia|]. exact (Hno j Hj Hjin).
Qed.

(** Inside a range of [find_subsegments_indices] neighbours are equal. *)
Lemma find_subsegments_indices_adjacent values segs s e j :
  find_subsegments_indices values = Ok segs -> In (s, e) segs ->
  s < j < e -> j < length values ->
  cell_eqb (nth (j - 1) values NaN) (nth j values NaN) = true.
Proof.
  unfold find_subsegments_indices. intros Hrun Hin Hj Hlen.
  destruct (Nat.eqb (length values) 0); [discriminate|].
  inversion Hrun as [Hsegs]; subst segs; clear Hrun.
  apply no_change_inside in Hin; [|apply flatnonzero_from_increasing].
  destruct Hin as [_ Hno]. specialize (Hno j Hj).
  assert (Hnth : nth (j - 1) (adjacent_neq values) false <> true).
  { intros Htrue. apply Hno. apply in_map_iff. exists (j - 1). split; [lia|].
    apply flatnonzero_from_spec. split; [lia|]. now rewrite Nat.sub_0_r. }
  rewrite adjacent_neq_nth in Hnth by lia.
  replace (S (j - 1)) with j in Hnth by lia.
  unfold cell_neb in Hnth. destruct (cell_eqb _ _); [reflexivity|]. now elim Hnth.
Qed.

(** Label homogeneity of the ranges. *)
Lemma find_subsegments_indices_homogeneous values segs s e :
  find_subsegments_indices values = Ok segs -> In (s, e) segs ->
  e <= length values ->
  forall i, s <= i < e -> cell_same (nth s values NaN) (nth i values NaN) = true.
Proof.
  intros Hrun Hin Hlen i Hi.
  replace i with (s + (i - s)) by lia.
  assert (Hd : s + (i - s) < e) by lia. revert Hd.
  generalize (i - s) as d. clear i Hi.
  induction d as [|d IH]; intros Hd.
  - rewrite Nat.add_0_r. apply cell_same_refl.
  - eapply cell_same_eqb_trans; [apply IH; lia|].
    replace (s + d) with (s + S d - 1) by lia.
    eapply find_subsegments_indices_adjacent; eauto; lia.
Qed.

Lemma slice_head {A : Type} (d : A) s e (l : list A) :
  s < e -> s < length l -> exists rest, slice s e l = nth s l d :: rest.
Proof.
  unfold slice. revert s e; induction l as [|x l IH]; intros s e Hse Hs; [simpl in Hs; lia|].
  destruct s as [|s].
  - destruct e as [|e]; [lia|]. simpl. eauto.
  - simpl in Hs. destruct e as [|e]; [lia|].
    destruct (IH s e) as [rest Hrest]; [lia..|].
    exists rest. simpl. exact Hrest.
Qed.

Lemma has_column_spec df name :
  has_column df name = true <-> column df name <> None.
Proof.
  unfold has_column, columns. induction df as [|[n c] df IH]; simpl.
  - split; [discriminate|congruence].
  - rewrite String.eqb_sym. destruct (String.eqb n name); simpl.
    + split; [discriminate|reflexivity].
    + exact IH.
Qed.

Lemma column_get_loc df name values :
  column df name = Some values ->
  exists j, get_loc (columns df) name = Some j /\ snd (nth j df ("", [])) = values.
Proof.
  induction df as [|[n c] df IH]; simpl; [discriminate|].
  destruct (String.eqb n name).
  - intros H; inversion H; subst. exists 0. auto.
  - intros H. destruct (IH H) as (j & Hj & Hnth). exists (S j).
    rewrite Hj. auto.
Qed.

(** On ranges of a tiling the loop of [get_segment_label] reads the label at
    the start of each range. *)
Lemma segment_labels_starts df j values segs a :
  snd (nth j df ("", [])) = values -> chain a segs (length values) ->
  segment_labels df j segs = map (fun se => nth (fst se) values NaN) segs.
Proof.
  intros Hcol. unfold segment_labels.
  revert a; induction segs as [|[s e] segs IH]; intros a Hchain; [reflexivity|].
  cbn [flat_map map]. simpl in Hchain. destruct Hchain as (-> & Hlt & Hchain).
  rewrite (IH _ Hchain). pose proof (chain_le _ _ _ Hchain) as Hle.
  unfold iloc. rewrite Hcol. cbn [fst snd].
  destruct (slice_head NaN a e values) as [rest Hrest]; [lia..|].
  rewrite Hrest. reflexivity.
Qed.

Lemma segment_rows_map values segs :
  segment_rows segs (map (fun se => nth (fst se) values NaN) segs) = rows_of values segs.
Proof.
  unfold segment_rows, rows_of. induction segs as [|se segs IH]; [reflexivity|].
  simpl. now rewrite <- IH.
Qed.

(** The run of [find_label_segments] on a frame with a non-empty label
    column. *)
Lemma find_label_segments_run df label_column values :
  column df label_column = Some values -> values <> [] ->
  exists segs,
    find_subsegments_indices values = Ok segs /\
    chain 0 segs (length values) /\
    get_segment_label (PyDataFrame df) segs label_column
      = Ok (map (fun se => nth (fst se) values NaN) segs) /\
    find_label_segments (PyDataFrame df) label_column = Ok (rows_of values segs).
Proof.
  intros Hcol Hne.
  destruct (find_subsegments_indices_chain values Hne) as (segs & Hrun & Hchain).
  exists segs. split; [exact Hrun|]. split; [exact Hchain|].
  destruct (column_get_loc _ _ _ Hcol) as (j & Hj & Hnth).
  assert (Hlabels : get_segment_label (PyDataFrame df) segs label_column
                    = Ok (map (fun se => nth (fst se) values NaN) segs)).
  { unfold get_segment_label. rewrite Hj.
    now rewrite (segment_labels_starts _ _ _ _ _ Hnth Hchain). }
  split; [exact Hlabels|].
  unfold find_label_segments.
  assert (Hhas : has_column df label_column = true)
    by (apply has_column_spec; congruence).
  rewrite Hhas, Hcol, Hrun. cbn [negb bind Ok].
  rewrite Hlabels. cbn [bind Ok]. rewrite length_map, Nat.eqb_refl. cbn [negb].
  now rewrite segment_rows_map.
Qed.

(** C2 (label homogeneity): on every frame whose label column is not
    empty, [find_label_segments] returns one row per range of
    [find_subsegments_indices], [get_segment_label] returns as many labels
    as there are ranges, and the label of every row is the value that all
    positions of its range [[start, end)] of the label column share (the
    very same cell when the labels are integers). *)
Theorem find_label_segments_homogeneous df label_column values :
  column df label_column = Some values -> values <> [] ->
  exists segments labels rows,
    find_subsegments_indices values = Ok segments /\
    get_segment_label (PyDataFrame df) segments label_column = Ok labels /\
    length labels = length segments /\
    find_label_segments (PyDataFrame df) label_column = Ok rows /\
    map (fun r => (start r, end_ r)) rows = segments /\
    map label rows = labels /\
    forall row, In row rows ->
      start row < end_ row <= length values /\
      duration row = end_ row - start row /\
      (forall i, start row <= i < end_ row ->
         cell_same (nth i values NaN) (label row) = true) /\
      ((forall c, In c values -> exists z, c = Int z) ->
       forall i, start row <= i < end_ row -> nth_error values i = Some (label row)).
Proof.
  intros Hcol Hne.
  destruct (find_label_segments_run _ _ _ Hcol Hne)
    as (segs & Hrun & Hchain & Hlabels & Hrows).
  exists segs, (map (fun se => nth (fst se) values NaN) segs), (rows_of values segs).
  split; [exact Hrun|]. split; [exact Hlabels|]. split; [apply length_map|].
  split; [exact Hrows|].
  split; [unfold rows_of; rewrite map_map; cbn [start end_];
          rewrite <- (map_id segs) at 2; apply map_ext; now intros []|].
  split; [unfold rows_of; rewrite map_map; reflexivity|].
  intros row Hin. unfold rows_of in Hin. apply in_map_iff in Hin.
  destruct Hin as ([s e] & <- & Hin). cbn [start end_ duration label fst snd].
  destruct (chain_In _ _ _ _ _ Hchain Hin) as (_ & Hse & Hle).
  assert (Hsame : forall i, s <= i < e ->
                    cell_same (nth i values NaN) (nth s values NaN) = true).
  { intros i Hi.
    pose proof (find_subsegments_indices_homogeneous _ _ _ _ Hrun Hin Hle i Hi) as H.
    destruct (nth s values NaN) eqn:Es, (nth i values NaN) eqn:Ei;
      simpl in *; try discriminate; try reflexivity;
      rewrite ?Qeq_bool_iff, ?String.eqb_eq in *; try (symmetry; exact H). }
  split; [lia|]. split; [reflexivity|]. split; [exact Hsame|].
  intros Hint i Hi. specialize (Hsame i Hi).
  assert (Hi' : i < length values) by lia.
  rewrite (nth_error_nth' values NaN Hi'). f_equal.
  destruct (Hint (nth i values NaN)) as [zi Hzi]; [apply nth_In; lia|].
  destruct (Hint (nth s values NaN)) as [zs Hzs]; [apply nth_In; lia|].
  rewrite Hzs in Hsame. rewrite Hzi, Hzs. f_equal.
  eapply cell_same_Int; eauto.
Qed.

Lemma find_label_segments_homogeneous_witness :
  exists segments labels rows,
    find_subsegments_indices
      [Int 0; Int 0; Int 1; Int 1; Int 1; Int 0; Int 2; Int 2] = Ok segments /\
    get_segment_label (PyDataFrame scenario_A) segments "pred" = Ok labels /\
    length labels = length segments /\
    find_label_segments (PyDataFrame scenario_A) "pred" = Ok rows /\
    map (fun r => (start r, end_ r)) rows = segments /\
    map label rows = labels /\
    forall row, In row rows ->
      start row < end_ row <= 8 /\
      duration row = end_ row - start row /\
      (forall i, start row <= i < end_ row ->
         cell_same
           (nth i [Int 0; Int 0; Int 1; Int 1; Int 1; Int 0; Int 2; Int 2] NaN)
           (label row) = true) /\
      ((forall c, In c [Int 0; Int 0; Int 1; Int 1; Int 1; Int 0; Int 2; Int 2] ->
                  exists z, c = Int z) ->
       forall i, start row <= i < end_ row ->
         nth_error [Int 0; Int 0; Int 1; Int 1; Int 1; Int 0; Int 2; Int 2] i
         = Some (label row)).
Proof.
  apply (find_label_segments_homogeneous scenario_A "pred"
           [Int 0; Int 0; Int 1; Int 1; Int 1; Int 0; Int 2; Int 2]).
  - reflexivity.
  - discriminate.
Defined.

(** C8 (errors of the segment table): [find_label_segments] raises exactly
    when its input is not a frame (InvalidInputError), the label column is
    absent (ColumnNotFoundError) or the label column is empty
    (EmptyInputError); on a frame with a non-empty label column it returns,
    and it never raises LengthMismatchError. *)
Theorem find_label_segments_errors (data : pyobj) (label_column : string) :
  (raises (find_label_segments data label_column) <->
     data = PyOther \/
     (exists df, data = PyDataFrame df /\ column df label_column = None) \/
     (exists df, data = PyDataFrame df /\ column df label_column = Some [])) /\
  (data = PyOther -> find_label_segments data label_column = Raise InvalidInputError) /\
  (forall df, data = PyDataFrame df -> column df label_column = None ->
     find_label_segments data label_column = Raise ColumnNotFoundError) /\
  (forall df, data = PyDataFrame df -> column df label_column = Some [] ->
     find_label_segments data label_column = Raise EmptyInputError) /\
  (forall df values, data = PyDataFrame df ->
     column df label_column = Some values -> values <> [] ->
     exists rows, find_label_segments data label_column = Ok rows /\ rows <> []) /\
  (forall n m, find_label_segments data label_column <> Raise (LengthMismatchError n m)).
Proof.
  assert (Hother : find_label_segments PyOther label_column = Raise InvalidInputError)
    by reflexivity.
  assert (Habsent : forall df, column df label_column = None ->
            find_label_segments (PyDataFrame df) label_column = Raise ColumnNotFoundError).
  { intros df Hcol. unfold find_label_segments.
    destruct (has_column df label_column) eqn:Hhas; [|reflexivity].
    apply has_column_spec in Hhas. congruence. }
  assert (Hempty : forall df, column df label_column = Some [] ->
            find_label_segments (PyDataFrame df) label_column = Raise EmptyInputError).
  { intros df Hcol. unfold find_label_segments.
    assert (Hhas : has_column df label_column = true)
      by (apply has_column_spec; congruence).
    rewrite Hhas, Hcol. reflexivity. }
  assert (Hok : forall df values, column df label_column = Some values -> values <> [] ->
            exists rows, find_label_segments (PyDataFrame df) label_column = Ok rows /\
                         rows <> []).
  { intros df values Hcol Hne.
    destruct (find_label_segments_run _ _ _ Hcol Hne) as (segs & _ & Hchain & _ & Hrows).
    exists (rows_of values segs). split; [exact Hrows|].
    assert (Hpos : 0 < length values) by (destruct values; [congruence|simpl; lia]).
    pose proof (chain_nonempty _ _ _ Hpos Hchain) as Hsegs.
    destruct segs; [congruence|discriminate]. }
  split; [|split; [|split; [|split; [|split]]]].
  - split.
    + intros [e He]. destruct data as [df|]; [|now left]. right.
      destruct (column df label_column) as [[|v values]|] eqn:Hcol.
      * right. exists df. auto.
      * destruct (Hok df (v :: values) Hcol) as (rows & Hrows & _); [discriminate|].
        rewrite Hrows in He. discriminate.
      * left. exists df. auto.
    + intros [->|[(df & -> & Hcol)|(df & -> & Hcol)]].
      * eexists; exact Hother.
      * eexists; exact (Habsent df Hcol).
      * eexists; exact (Hempty df Hcol).
  - intros ->. exact Hother.
  - intros df -> Hcol. exact (Habsent df Hcol).
  - intros df -> Hcol. exact (Hempty df Hcol).
  - intros df values -> Hcol Hne. exact (Hok df values Hcol Hne).
  - intros n m Hmis. destruct data as [df|]; [|discriminate].
    destruct (column df label_column) as [[|v values]|] eqn:Hcol.
    + rewrite (Hempty df Hcol) in Hmis. discriminate.
    + destruct (Hok df (v :: values) Hcol) as (rows & Hrows & _); [discriminate|].
      rewrite Hrows in Hmis. discriminate.
    + rewrite (Habsent df Hcol) in Hmis. discriminate.
Qed.

End LabelSegments.

(** ** Windows to seconds *)

Section WindowsToSeconds.

Lemma Qdiv_50 (z : Z) : (inject_Z z / 50 == z # 50)%Q.
Proof.
  unfold Qdiv, Qmult, Qinv, Qeq, inject_Z. simpl. lia.
Qed.

(** C9: for integer arguments (in particular every [n_windows >= 1])
    [windows_to_seconds] returns
    [(window_size + window_slide * (n_windows - 1)) / 50]; one window of
    size 25 lasts 0.5 s and five windows with slide 5 last 0.9 s, as
    rationals and as the doubles Python computes ([0x1.ccccccccccccdp-1] is
    the double that the literal [0.9] denotes). *)
Theorem windows_to_seconds_formula :
  (forall n_windows window_size window_slide : Z,
      (windows_to_seconds (inject_Z n_windows) (inject_Z window_size)
         (inject_Z window_slide)
       == (window_size + window_slide * (n_windows - 1)) # 50)%Q) /\
  (windows_to_seconds 1 25 5 == 5 # 10)%Q /\
  (windows_to_seconds 5 25 5 == 9 # 10)%Q /\
  (windows_to_seconds_default 1 == 5 # 10)%Q /\
  (windows_to_seconds_default 5 == 9 # 10)%Q /\
  windows_to_seconds_float 1 25 5 = 0.5%float /\
  windows_to_seconds_float 5 25 5 = 0x1.ccccccccccccdp-1%float.
Proof.
  split; [|repeat split; reflexivity].
  intros n size slide. unfold windows_to_seconds.
  rewrite <- Qdiv_50.
  assert (H : (inject_Z size + inject_Z slide * (inject_Z n - 1)
               == inject_Z (size + slide * (n - 1)))%Q).
  { unfold Z.sub. rewrite inject_Z_plus, inject_Z_mult, inject_Z_plus. reflexivity. }
  rewrite H. reflexivity.
Qed.

End WindowsToSeconds.

(** ** [groupby("label")] followed by [reindex] *)

Section PerLabel.

Lemma series_get_keys (f : cell -> cell) keys l :
  series_get (map (fun k => (k, f k)) keys) l
  = option_map f (find (fun k => cell_same k l) keys).
Proof.
  induction keys as [|k keys IH]; simpl; [reflexivity|].
  destruct (cell_same k l); [reflexivity|exact IH].
Qed.

Lemma group_keys_label segs k :
  In k (group_keys cell_same cell_leb is_nan label segs) ->
  is_nan k = false /\ exists s, In s segs /\ label s = k.
Proof.
  unfold group_keys. intros H. apply sort_In, unique_by_In, filter_In in H.
  destruct H as [H Hnan]. apply in_map_iff in H. destruct H as (s & <- & Hs).
  split; [now apply negb_true_iff|eauto].
Qed.

Lemma group_keys_repr segs s :
  In s segs -> is_nan (label s) = false ->
  exists k, In k (group_keys cell_same cell_leb is_nan label segs) /\
            cell_same (label s) k = true.
Proof.
  intros Hs Hnan. unfold group_keys.
  destruct (unique_by_repr cell_same
              (filter (fun k => negb (is_nan k)) (map label segs))
              cell_same_refl cell_same_trans (label s)) as (k & Hk & Hsame).
  - apply filter_In. split; [now apply in_map|]. now rewrite Hnan.
  - exists k. split; [now apply sort_In|exact Hsame].
Qed.

Lemma filter_nil {A : Type} (p : A -> bool) l :
  (forall x, In x l -> p x = false) -> filter p l = [].
Proof.
  induction l as [|x l IH]; simpl; intros H; [reflexivity|].
  rewrite (H x) by now left. apply IH. intros y Hy. apply H. now right.
Qed.

(** The group of a key is the group of every label that is the same. *)
Lemma group_of_key segs k l :
  In k (group_keys cell_same cell_leb is_nan label segs) -> cell_same k l = true ->
  filter (fun r => cell_same (label r) k) segs = group_of segs l /\
  group_of segs l <> [].
Proof.
  intros Hk Hkl. destruct (group_keys_label _ _ Hk) as (Hnan & s & Hs & Hlabel).
  unfold group_of. rewrite <- (cell_same_nan _ _ Hkl), Hnan.
  assert (Heq : filter (fun r => cell_same (label r) k) segs
                = filter (fun r => cell_same (label r) l) segs).
  { apply filter_ext. intros r. now apply cell_same_congr. }
  split; [exact Heq|]. intros Hnil.
  assert (Hin : In s (filter (fun r => cell_same (label r) l) segs)).
  { apply filter_In. split; [exact Hs|]. now rewrite Hlabel. }
  rewrite Hnil in Hin. contradiction.
Qed.

Lemma group_of_no_key segs l :
  (forall k, In k (group_keys cell_same cell_leb is_nan label segs) ->
             cell_same k l = false) ->
  group_of segs l = [].
Proof.
  intros Hno. unfold group_of. destruct (is_nan l) eqn:Hnan; [reflexivity|].
  apply filter_nil. intros s Hs. destruct (cell_same (label s) l) eqn:Hsl; [|reflexivity].
  destruct (group_keys_repr segs s Hs) as (k & Hk & Hsk).
  - now rewrite (cell_same_nan _ _ Hsl).
  - rewrite <- (Hno k Hk). symmetry. eapply cell_same_trans; [|exact Hsl].
    now rewrite cell_same_sym.
Qed.

Lemma series_get_groupby_label (f : list Segment -> cell) segs l :
  series_get (map (fun kg => (fst kg, f (snd kg))) (groupby_label segs)) l
  = match group_of segs l with
    | [] => None
    | _ :: _ => Some (f (group_of segs l))
    end.
Proof.
  unfold groupby_label, group_by. rewrite map_map. cbn [fst snd].
  rewrite (series_get_keys (fun k => f (filter (fun r => cell_same (label r) k) segs))).
  destruct (find (fun k => cell_same k l) _) as [k|] eqn:Hfind; cbn [option_map].
  - apply find_some in Hfind. destruct Hfind as [Hk Hkl].
    destruct (group_of_key segs k l Hk Hkl) as [Heq Hne].
    rewrite Heq. destruct (group_of segs l); [congruence|reflexivity].
  - rewrite group_of_no_key; [reflexivity|].
    intros k Hk. exact (find_none _ _ Hfind k Hk).
Qed.

Lemma reindex_groupby_label (f : list Segment -> cell) fill segs labels :
  reindex labels fill (map (fun kg => (fst kg, f (snd kg))) (groupby_label segs))
  = map (fun l => (l, per_label f fill segs l)) labels.
Proof.
  unfold reindex, per_label. apply map_ext. intros l.
  rewrite series_get_groupby_label. now destruct (group_of segs l).
Qed.

Lemma map_fst_pairs {A B : Type} (g : A -> B) (l : list A) :
  map fst (map (fun a => (a, g a)) l) = l.
Proof. rewrite map_map. cbn [fst]. apply map_id. Qed.

Lemma map_snd_pairs {A B : Type} (g : A -> B) (l : list A) :
  map snd (map (fun a => (a, g a)) l) = map g l.
Proof. rewrite map_map. reflexivity. Qed.

(** A segment whose label is missing is in no group. *)
Lemma group_of_not_nan segs l s : In s (group_of segs l) -> is_nan (label s) = false.
Proof.
  unfold group_of. destruct (is_nan l) eqn:Hnan; [contradiction|].
  intros H. apply filter_In in H. destruct H as [_ H].
  now rewrite (cell_same_nan _ _ H).
Qed.

End PerLabel.

(** ** The three aggregators, per label *)

Section Aggregators.

Lemma mapM_pure {A B : Type} (F : A -> result B) (g : A -> B) (l : list A) :
  (forall x, In x l -> F x = Ok (g x)) -> mapM F l = Ok (map g l).
Proof.
  induction l as [|x l IH]; intros H; [reflexivity|].
  cbn [mapM map]. rewrite (H x) by now left. cbn [bind Ok].
  rewrite IH by (intros y Hy; apply H; now right). reflexivity.
Qed.

Lemma slice_In {A : Type} (x : A) s e l : In x (slice s e l) -> In x l.
Proof.
  unfold slice. intros H.
  rewrite <- (firstn_skipn s l). apply in_or_app. right.
  rewrite <- (firstn_skipn (e - s) (skipn s l)). apply in_or_app. now left.
Qed.

Lemma series_max_numeric l : numeric l -> exists m, series_max l = Ok m.
Proof.
  induction l as [|c l IH]; intros Hnum; [eexists; reflexivity|].
  destruct IH as [m Hm]; [intros s Hs; apply (Hnum s); now right|].
  cbn [series_max]. rewrite Hm. cbn [bind Ok].
  destruct c as [z|q|s|]; cbn [to_number].
  - destruct m; eexists; reflexivity.
  - destruct m; eexists; reflexivity.
  - elim (Hnum s). now left.
  - eexists; reflexivity.
Qed.

Variable intensity_data : DataFrame.
Variable icol : list cell.
Hypothesis Hicol : column intensity_data "Intensity" = Some icol.
Hypothesis Hnumeric : numeric icol.

Lemma segment_intensity_numeric row :
  exists m, segment_intensity intensity_data row = Ok m.
Proof.
  unfold segment_intensity. rewrite Hicol. apply series_max_numeric.
  intros s Hs. apply (Hnumeric s). eapply slice_In; eauto.
Qed.

(** Only representative intensities strictly above the threshold are
    averaged. *)
Lemma intensities_per_segment_numeric segments thr :
  exists l, intensities_per_segment segments intensity_data thr = Ok l /\
            Forall (fun x => (thr < x)%Q) l.
Proof.
  induction segments as [|row segments IH]; [exists []; split; [reflexivity|constructor]|].
  destruct IH as (l & Hl & Hall). destruct (segment_intensity_numeric row) as [m Hm].
  cbn [intensities_per_segment]. rewrite Hm, Hl. cbn [bind Ok].
  destruct m as [x|]; [|eauto]. unfold exceeds.
  destruct (Qle_bool x thr) eqn:Hle; cbn [negb]; [eauto|].
  exists (x :: l). split; [reflexivity|]. constructor; [|exact Hall].
  apply Qnot_le_lt. intros Hle'. apply Qle_bool_iff in Hle'. congruence.
Qed.

Lemma get_intensities_per_segments_numeric segments thr :
  get_intensities_per_segments segments intensity_data thr
  = Ok (intensity_value intensity_data thr segments).
Proof.
  unfold intensity_value.
  destruct (intensities_per_segment_numeric segments thr) as (l & Hl & _).
  unfold get_intensities_per_segments. rewrite Hl. cbn [bind Ok].
  destruct l; reflexivity.
Qed.

End Aggregators.

Section AggregatorRuns.

Variable mapping : option dict.

Lemma get_num_expressions_grouped results rows :
  find_label_segments (PyDataFrame results) "pred" = Ok rows ->
  get_num_expressions results mapping true
  = Ok [("label", canonical_labels mapping);
        ("expression_count",
         map (fun l => Int (Z.of_nat (length (group_of (qualifying mapping rows) l))))
             (canonical_labels mapping))].
Proof.
  intros Hrows. unfold get_num_expressions. rewrite Hrows. cbn [bind Ok].
  rewrite (reindex_groupby_label (fun g => Int (Z.of_nat (length g)))).
  rewrite map_fst_pairs, map_snd_pairs. do 4 f_equal.
  apply map_ext. intros l. unfold per_label, qualifying.
  now destruct (group_of _ l).
Qed.

Lemma get_num_expressions_total results rows :
  find_label_segments (PyDataFrame results) "pred" = Ok rows ->
  get_num_expressions results mapping false
  = Ok [("expression_count", [Int (Z.of_nat (length (qualifying mapping rows)))])].
Proof.
  intros Hrows. unfold get_num_expressions. rewrite Hrows. reflexivity.
Qed.

Lemma get_expression_duration_empty results rows average :
  find_label_segments (PyDataFrame results) "pred" = Ok rows ->
  drop_background rows = [] ->
  get_expression_duration results mapping average true
  = Ok [("duration", repeat (Int 0) (length (canonical_labels mapping)));
        ("label", canonical_labels mapping)].
Proof.
  intros Hrows Hempty. unfold get_expression_duration.
  rewrite Hrows. cbn [bind Ok]. rewrite Hempty. reflexivity.
Qed.

Lemma get_expression_duration_average results rows :
  find_label_segments (PyDataFrame results) "pred" = Ok rows ->
  drop_background rows <> [] ->
  get_expression_duration results mapping true true
  = Ok [("label", canonical_labels mapping);
        ("duration",
         map (per_label (fun g => Float (windows_to_seconds_default (mean_duration g)))
                        (Int 0) (qualifying mapping rows))
             (canonical_labels mapping))].
Proof.
  intros Hrows Hne. unfold get_expression_duration.
  rewrite Hrows. cbn [bind Ok].
  destruct (drop_background rows) as [|s0 rest] eqn:Hdrop; [congruence|].
  cbn [length Nat.eqb negb].
  rewrite (reindex_groupby_label
             (fun g => Float (windows_to_seconds_default (mean_duration g)))).
  rewrite map_fst_pairs, map_snd_pairs. unfold qualifying. now rewrite Hdrop.
Qed.


Lemma get_mean_intensities_empty intensity_data label_col rows thr :
  find_label_segments (PyDataFrame intensity_data) label_col = Ok rows ->
  drop_background rows = [] ->
  get_mean_intensities intensity_data mapping true thr label_col
  = Ok (PerLabel [("label", canonical_labels mapping);
                  ("Expression Intensity",
                   repeat (Int 0) (length (canonical_labels mapping)))]).
Proof.
  intros Hrows Hempty. unfold get_mean_intensities.
  rewrite Hrows. cbn [bind Ok]. rewrite Hempty. reflexivity.
Qed.

Lemma groupby_label_nonempty segs s :
  In s segs -> is_nan (label s) = false -> groupby_label segs <> [].
Proof.
  intros Hs Hnan. destruct (group_keys_repr segs s Hs Hnan) as (k & Hk & _).
  unfold groupby_label, group_by.
  destruct (group_keys cell_same cell_leb is_nan label segs); [contradiction|discriminate].
Qed.

Lemma get_mean_intensities_grouped intensity_data icol label_col rows thr s :
  column intensity_data "Intensity" = Some icol -> numeric icol ->
  find_label_segments (PyDataFrame intensity_data) label_col = Ok rows ->
  In s (qualifying mapping rows) -> is_nan (label s) = false ->
  get_mean_intensities intensity_data mapping true thr label_col
  = Ok (PerLabel [("label", canonical_labels mapping);
                  ("Expression Intensity",
                   map (per_label (intensity_value intensity_data thr) (Int 0)
                                  (qualifying mapping rows))
                       (canonical_labels mapping))]).
Proof.
  intros Hicol Hnum Hrows Hs Hnan. unfold get_mean_intensities.
  rewrite Hrows. cbn [bind Ok]. unfold qualifying in *.
  destruct (drop_background rows) as [|s0 rest] eqn:Hdrop.
  { destruct mapping; simpl in Hs; contradiction. }
  cbn [length Nat.eqb].
  pose proof (groupby_label_nonempty _ _ Hs Hnan) as Hgroups.
  destruct (groupby_label (map_labels mapping (s0 :: rest))) as [|g0 groups] eqn:Hg;
    [congruence|].
  rewrite (mapM_pure _ (fun kx => (fst kx, intensity_value intensity_data thr (snd kx)))).
  - cbn [bind Ok]. rewrite <- Hg.
    rewrite (reindex_groupby_label (intensity_value intensity_data thr)).
    now rewrite map_fst_pairs, map_snd_pairs.
  - intros kx _.
    rewrite (get_intensities_per_segments_numeric _ _ Hicol Hnum). reflexivity.
Qed.

Lemma intensity_value_nil intensity_data thr :
  intensity_value intensity_data thr [] = Int 0.
Proof. reflexivity. Qed.

End AggregatorRuns.

(** ** Zero-fill completeness *)

Section ZeroFill.

Lemma zero_filled_values (g : cell -> cell) labels segs :
  (forall l, group_of segs l = [] -> g l = Int 0) ->
  length (map g labels) = length labels /\
  forall i l, nth_error labels i = Some l -> group_of segs l = [] ->
              nth_error (map g labels) i = Some (Int 0).
Proof.
  intros Hg. split; [apply length_map|].
  intros i l Hi Hnil. rewrite nth_error_map, Hi. cbn [option_map]. now rewrite Hg.
Qed.

Lemma zero_filled_repeat labels segs :
  length (repeat (Int 0) (length labels)) = length labels /\
  forall i l, nth_error labels i = Some l -> group_of segs l = [] ->
              nth_error (repeat (Int 0) (length labels)) i = Some (Int 0).
Proof.
  split; [apply repeat_length|].
  intros i l Hi _. apply nth_error_repeat.
  apply nth_error_Some. congruence.
Qed.

Lemma per_label_nil f segs l : group_of segs l = [] -> per_label f (Int 0) segs l = Int 0.
Proof. unfold per_label. now intros ->. Qed.

(** C3, as amended (zero-fill completeness): on a frame with a non-empty
    label column, the count aggregator with [group=True], the duration
    aggregator with [group=True] when it averages or finds no qualifying
    segment, and the intensity aggregator with [group_labels=True] when
    there is no qualifying segment or one of them keeps a label after the
    mapping, return exactly one row per label of the canonical label set
    ([mapping.values()], else [1, 2, 3]), in that order, with the value 0
    for every label that no qualifying segment bears. *)
Theorem per_label_zero_fill (mapping : option dict) :
  (forall results values,
      column results "pred" = Some values -> values <> [] ->
      exists rows out,
        find_label_segments (PyDataFrame results) "pred" = Ok rows /\
        get_num_expressions results mapping true = Ok out /\
        zero_filled out "expression_count" (canonical_labels mapping)
                    (qualifying mapping rows)) /\
  (forall results values average,
      column results "pred" = Some values -> values <> [] ->
      exists rows,
        find_label_segments (PyDataFrame results) "pred" = Ok rows /\
        (average = true \/ drop_background rows = [] ->
         exists out,
           get_expression_duration results mapping average true = Ok out /\
           zero_filled out "duration" (canonical_labels mapping)
                       (qualifying mapping rows))) /\
  (forall intensity_data label_col values icol intensity_threshold,
      column intensity_data label_col = Some values -> values <> [] ->
      column intensity_data "Intensity" = Some icol -> numeric icol ->
      exists rows,
        find_label_segments (PyDataFrame intensity_data) label_col = Ok rows /\
        (drop_background rows = [] \/
         (exists s, In s (qualifying mapping rows) /\ is_nan (label s) = false) ->
         exists out,
           get_mean_intensities intensity_data mapping true intensity_threshold label_col
             = Ok (PerLabel out) /\
           zero_filled out "Expression Intensity" (canonical_labels mapping)
                       (qualifying mapping rows))).
Proof.
  split; [|split].
  - intros results values Hcol Hne.
    destruct (find_label_segments_run _ _ _ Hcol Hne) as (segs & _ & _ & _ & Hrows).
    eexists; eexists. split; [exact Hrows|].
    split; [apply (get_num_expressions_grouped mapping _ _ Hrows)|].
    split; [reflexivity|]. split; [reflexivity|].
    eexists. split; [reflexivity|].
    apply (zero_filled_values
             (fun l => Int (Z.of_nat (length (group_of (qualifying mapping _) l))))).
    now intros l ->.
  - intros results values average Hcol Hne.
    destruct (find_label_segments_run _ _ _ Hcol Hne) as (segs & _ & _ & _ & Hrows).
    eexists. split; [exact Hrows|]. intros Hcase.
    destruct (drop_background (rows_of values segs)) as [|s0 rest] eqn:Hdrop.
    + eexists. split; [apply (get_expression_duration_empty mapping _ _ _ Hrows Hdrop)|].
      split; [reflexivity|]. split; [reflexivity|].
      eexists. split; [reflexivity|]. apply zero_filled_repeat.
    + destruct Hcase as [->|Hnil]; [|discriminate].
      eexists. split.
      * apply (get_expression_duration_average mapping _ _ Hrows). congruence.
      * split; [reflexivity|]. split; [reflexivity|].
        eexists. split; [reflexivity|].
        apply zero_filled_values. intros l. apply per_label_nil.
  - intros intensity_data label_col values icol thr Hcol Hne Hicol Hnum.
    destruct (find_label_segments_run _ _ _ Hcol Hne) as (segs & _ & _ & _ & Hrows).
    eexists. split; [exact Hrows|]. intros [Hdrop|(s & Hs & Hnan)].
    + eexists. split; [apply (get_mean_intensities_empty mapping _ _ _ _ Hrows Hdrop)|].
      split; [reflexivity|]. split; [reflexivity|].
      eexists. split; [reflexivity|]. apply zero_filled_repeat.
    + eexists. split.
      * apply (get_mean_intensities_grouped mapping _ _ _ _ _ _ Hicol Hnum Hrows Hs Hnan).
      * split; [reflexivity|]. split; [reflexivity|].
        eexists. split; [reflexivity|].
        apply zero_filled_values. intros l. apply per_label_nil.
Qed.

Lemma per_label_zero_fill_witness :
  (exists rows out,
      find_label_segments (PyDataFrame scenario_D) "pred" = Ok rows /\
      get_num_expressions scenario_D (Some mapping_ABC) true = Ok out /\
      zero_filled out "expression_count" (canonical_labels (Some mapping_ABC))
                  (qualifying (Some mapping_ABC) rows)) /\
  (exists rows out,
      find_label_segments (PyDataFrame scenario_A) "pred" = Ok rows /\
      get_expression_duration scenario_A None true true = Ok out /\
      zero_filled out "duration" (canonical_labels None) (qualifying None rows)) /\
  (exists rows out,
      find_label_segments (PyDataFrame scenario_C) "pred" = Ok rows /\
      get_mean_intensities scenario_C None true (95 # 100) "pred" = Ok (PerLabel out) /\
      zero_filled out "Expression Intensity" (canonical_labels None)
                  (qualifying None rows)).
Proof.
  split; [|split].
  - apply (proj1 (per_label_zero_fill (Some mapping_ABC)) scenario_D
                 [Int 0; Int 0; Int 0; Int 0]); [reflexivity|discriminate].
  - destruct (proj1 (proj2 (per_label_zero_fill None)) scenario_A
                    [Int 0; Int 0; Int 1; Int 1; Int 1; Int 0; Int 2; Int 2] true)
      as (rows & Hrows & Hout); [reflexivity|discriminate|].
    destruct Hout as (out & Hout & Hzero); [now left|].
    exists rows, out. auto.
  - destruct (proj2 (proj2 (per_label_zero_fill None)) scenario_C "pred"
                    [Int 0; Int 0; Int 1; Int 1; Int 1; Int 0]
                    [Float (1 # 10); Float (1 # 10); Float (9 # 10);
                     Float (3 # 10); Float (2 # 10); Float (1 # 10)] (95 # 100))
      as (rows & Hrows & Hout); [reflexivity|discriminate|reflexivity| |].
    + intros s Hs. simpl in Hs. intuition discriminate.
    + destruct Hout as (out & Hout & Hzero).
      * right. exists (mkSegment 2 5 3 (Int 1)).
        vm_compute in Hrows. inversion Hrows; subst rows.
        split; [vm_compute; auto|reflexivity].
      * exists rows, out. auto.
Defined.

(** C3, as stated, fails for the duration aggregator: with [group=True]
    and the default [average=False] it lists the two expression segments of
    scenario A, one row each, not the three labels 1, 2, 3. *)
Lemma per_label_duration_counterexample :
  get_expression_duration scenario_A None false true
  = Ok [("duration", [Float (35 # 50); Float (30 # 50)]); ("label", [Int 1; Int 2])] /\
  forall segments,
    ~ zero_filled [("duration", [Float (35 # 50); Float (30 # 50)]);
                   ("label", [Int 1; Int 2])]
        "duration" (canonical_labels None) segments.
Proof.
  split; [reflexivity|].
  intros segments (_ & Hlabels & _). discriminate.
Qed.

End ZeroFill.

(** ** The intensity threshold *)

Section IntensityThreshold.

(** C4: with [group_labels=False] the caller's [intensity_threshold] never
    reaches [get_intensities_per_segments], which then compares with its
    default 0.  In scenario C with threshold 0.95 the overall mean is 0.9,
    not 0, while the per-label table of the same call has 0 for label 1. *)
Theorem intensity_threshold_not_forwarded :
  (forall intensity_data mapping intensity_threshold label_col,
      get_mean_intensities intensity_data mapping false intensity_threshold label_col
      = get_mean_intensities intensity_data mapping false 0 label_col) /\
  get_mean_intensities scenario_C None false (95 # 100) "pred"
    = Ok (Scalar (Float (9 # 10))) /\
  get_mean_intensities scenario_C None true (95 # 100) "pred"
    = Ok (PerLabel [("label", [Int 1; Int 2; Int 3]);
                    ("Expression Intensity", [Int 0; Int 0; Int 0])]).
Proof.
  split; [reflexivity|]. split; reflexivity.
Qed.

End IntensityThreshold.

(** ** Missing labels after the mapping *)

Section UnmappedLabels.

Variable m : dict.

(** What the aggregators do with the labels a mapping omits, wherever
    they return: the segments get the label NaN, are in no group, and the
    per-label tables are computed from the other segments alone. *)
Lemma unmapped_labels_dropped results values :
  column results "pred" = Some values -> values <> [] ->
  exists rows,
    find_label_segments (PyDataFrame results) "pred" = Ok rows /\
    (forall s, In s (drop_background rows) -> dict_get m (label s) = None ->
               In (set_label s NaN) (qualifying (Some m) rows)) /\
    (forall l s, In s (group_of (qualifying (Some m) rows) l) ->
                 is_nan (label s) = false) /\
    get_num_expressions results (Some m) true
      = Ok [("label", dict_values m);
            ("expression_count",
             map (fun l => Int (Z.of_nat (length (group_of (qualifying (Some m) rows) l))))
                 (dict_values m))] /\
    get_num_expressions results (Some m) false
      = Ok [("expression_count", [Int (Z.of_nat (length (drop_background rows)))])] /\
    (drop_background rows <> [] ->
     get_expression_duration results (Some m) true true
       = Ok [("label", dict_values m);
             ("duration",
              map (per_label (fun g => Float (windows_to_seconds_default (mean_duration g)))
                             (Int 0) (qualifying (Some m) rows))
                  (dict_values m))]).
Proof.
  intros Hcol Hne.
  destruct (find_label_segments_run _ _ _ Hcol Hne) as (segs & _ & _ & _ & Hrows).
  eexists. split; [exact Hrows|]. split; [|split; [|split; [|split]]].
  - intros s Hs Hnone. unfold qualifying, map_labels. apply in_map_iff.
    exists s. split; [|exact Hs]. unfold dict_map. now rewrite Hnone.
  - intros l s. apply group_of_not_nan.
  - apply (get_num_expressions_grouped (Some m) _ _ Hrows).
  - rewrite (get_num_expressions_total (Some m) _ _ Hrows).
    unfold qualifying, map_labels. now rewrite length_map.
  - apply (get_expression_duration_average (Some m) _ _ Hrows).
Qed.

Lemma unmapped_labels_dropped_intensity intensity_data label_col values icol thr s :
  column intensity_data label_col = Some values -> values <> [] ->
  column intensity_data "Intensity" = Some icol -> numeric icol ->
  exists rows,
    find_label_segments (PyDataFrame intensity_data) label_col = Ok rows /\
    (In s (qualifying (Some m) rows) -> is_nan (label s) = false ->
     get_mean_intensities intensity_data (Some m) true thr label_col
     = Ok (PerLabel [("label", dict_values m);
                     ("Expression Intensity",
                      map (per_label (intensity_value intensity_data thr) (Int 0)
                                     (qualifying (Some m) rows))
                          (dict_values m))])).
Proof.
  intros Hcol Hne Hicol Hnum.
  destruct (find_label_segments_run _ _ _ Hcol Hne) as (segs & _ & _ & _ & Hrows).
  eexists. split; [exact Hrows|]. intros Hs Hnan.
  apply (get_mean_intensities_grouped (Some m) _ _ _ _ _ _ Hicol Hnum Hrows Hs Hnan).
Qed.

End UnmappedLabels.

Section UnmappedLabelsExamples.

(** In scenario A a mapping without the label 2 drops the segment
    [[6, 8)]: the per-label counts add up to 1, the total is 2. *)
Lemma unmapped_counts_example :
  get_num_expressions scenario_A (Some mapping_AC) true
    = Ok [("label", [Str "A"; Str "C"]); ("expression_count", [Int 1; Int 0])] /\
  get_num_expressions scenario_A (Some mapping_AC) false
    = Ok [("expression_count", [Int 2])] /\
  get_expression_duration scenario_A (Some mapping_AC) true true
    = Ok [("label", [Str "A"; Str "C"]); ("duration", [Float (35 # 50); Int 0])].
Proof. repeat split; reflexivity. Qed.

(** C10: when the mapping omits every expression label of the data (here
    label 1 of scenario C, with the mapping [{2: "B"}]), the count and the
    averaged duration tables are zero-filled, but the intensity aggregator
    with [group_labels=True] raises: its [groupby] has no group left. *)
Theorem unmapped_intensity_raises :
  dict_get mapping_B (Int 1) = None /\
  get_num_expressions scenario_C (Some mapping_B) true
    = Ok [("label", [Str "B"]); ("expression_count", [Int 0])] /\
  get_expression_duration scenario_C (Some mapping_B) true true
    = Ok [("label", [Str "B"]); ("duration", [Int 0])] /\
  exists msg,
    get_mean_intensities scenario_C (Some mapping_B) true 0 "pred"
    = Raise (ValueError msg).
Proof. repeat split; try reflexivity. eexists; reflexivity. Qed.

End UnmappedLabelsExamples.

(** ** The grouped count *)

Section GroupedCount.

Lemma normalize_with_video results grouping_columns mapping group_labels scaler h :
  contains (deref h match grouping_columns with
                    | Some l => l
                    | None => default_grouping_columns
                    end) "Video" = true ->
  get_grouped_num_expressions results grouping_columns mapping group_labels true scaler h
  = (Raise (UnboundLocalError "normalization_grouping_cols"), h).
Proof.
  intros Hvideo. unfold get_grouped_num_expressions. now rewrite Hvideo.
Qed.

(** A call that does not normalize, or does not count per label, leaves
    every list as it was. *)
Lemma get_grouped_num_expressions_heap results grouping_columns mapping
      group_labels normalize scaler h :
  normalize && group_labels = false ->
  snd (get_grouped_num_expressions results grouping_columns mapping group_labels
         normalize scaler h) = h.
Proof.
  intros Hflags. unfold get_grouped_num_expressions.
  destruct normalize; [|reflexivity]. simpl in Hflags. subst group_labels.
  destruct (negb _); [|reflexivity].
  destruct (bind _ _); reflexivity.
Qed.

(** Such a call can be repeated with the same result. *)
Lemma get_grouped_num_expressions_repeat results grouping_columns mapping
      group_labels normalize scaler h :
  normalize && group_labels = false ->
  let call :=
    get_grouped_num_expressions results grouping_columns mapping group_labels
      normalize scaler in
  call (snd (call h)) = call h.
Proof.
  intros Hflags call. unfold call.
  now rewrite get_grouped_num_expressions_heap.
Qed.

(** C5: with [normalize=True] and a grouping key that already contains
    "Video" (the default key does) no finer key is computed: the call raises
    UnboundLocalError for every table, mapping and scaler, before any count
    is taken. *)
Theorem normalize_with_video_unbound :
  (forall results mapping group_labels scaler,
      get_grouped_num_expressions results None mapping group_labels true scaler
        initial_heap
      = (Raise (UnboundLocalError "normalization_grouping_cols"), initial_heap)) /\
  (forall results mapping group_labels scaler,
      get_grouped_num_expressions results (Some 1) mapping group_labels true scaler
        [["Group"; "Subject"; "Video"]; ["Subject"; "Video"]]
      = (Raise (UnboundLocalError "normalization_grouping_cols"),
         [["Group"; "Subject"; "Video"]; ["Subject"; "Video"]])).
Proof.
  split; intros; now apply normalize_with_video.
Qed.

(** C7: a caller's list [["Group", "Subject"]] passed twice with
    [group_labels=True] and [normalize=True]: the first call returns the
    normalized counts and appends "label" to the caller's list, the second
    call with the same arguments raises KeyError.  With the default
    [grouping_columns] both calls raise UnboundLocalError and the default
    list stays as it was. *)
Theorem grouping_columns_mutated_across_calls :
  let call :=
    get_grouped_num_expressions example_results (Some 1) None true true
      (Some MaxAbsScaler) in
  let default_call :=
    get_grouped_num_expressions example_results None None true true
      (Some MaxAbsScaler) in
  call caller_heap
  = (Ok [("Group", [Str "g"; Str "g"; Str "g"; Str "g"; Str "g"; Str "g"]);
         ("Subject", [Int 1; Int 1; Int 1; Int 2; Int 2; Int 2]);
         ("label", [Int 1; Int 2; Int 3; Int 1; Int 2; Int 3]);
         ("expression_count", [Float 1; Float 1; Float 0; Float 1; Float 0; Float 0])],
     [["Group"; "Subject"; "Video"]; ["Group"; "Subject"; "label"]]) /\
  call (snd (call caller_heap))
  = (Raise (KeyError "label"),
     [["Group"; "Subject"; "Video"]; ["Group"; "Subject"; "label"]]) /\
  default_call caller_heap
  = (Raise (UnboundLocalError "normalization_grouping_cols"), caller_heap) /\
  default_call (snd (default_call caller_heap)) = default_call caller_heap.
Proof.
  cbv zeta. repeat split; vm_compute; reflexivity.
Qed.

End GroupedCount.

(** ** The short-segment filter *)

Section FilterPredictions.

Lemma set_range_nil s e v : set_range s e v [] = [].
Proof. unfold set_range, slice. now rewrite !firstn_nil, !skipn_nil, firstn_nil. Qed.

Lemma set_range_0_S e v x c :
  set_range 0 (S e) v (x :: c) = v :: set_range 0 e v c.
Proof. unfold set_range, slice. cbn. now rewrite !Nat.sub_0_r. Qed.

Lemma set_range_S s e v x c :
  set_range (S s) e v (x :: c) = x :: set_range s (e - 1) v c.
Proof.
  unfold set_range, slice. cbn [firstn skipn app]. f_equal.
  replace (e - 1 - s) with (e - S s) by lia.
  replace (Nat.max (S s) e) with (S (Nat.max s (e - 1))) by lia.
  reflexivity.
Qed.

Lemma set_range_0_0 v c : set_range 0 0 v c = c.
Proof. reflexivity. Qed.

Lemma set_range_length s e v c : length (set_range s e v c) = length c.
Proof.
  revert s e; induction c as [|x c IH]; intros s e; [now rewrite set_range_nil|].
  destruct s as [|s].
  - destruct e as [|e]; [reflexivity|]. rewrite set_range_0_S. cbn [length]. now rewrite IH.
  - rewrite set_range_S. cbn [length]. now rewrite IH.
Qed.

(** [col[s:e] = v] changes the cells of [[s, e)] and no other. *)
Lemma set_range_nth s e v c i d :
  nth i (set_range s e v c) d
  = if Nat.leb s i && Nat.ltb i e && Nat.ltb i (length c) then v else nth i c d.
Proof.
  revert s e i; induction c as [|x c IH]; intros s e i.
  - rewrite set_range_nil. cbn [length]. now rewrite andb_false_r.
  - destruct s as [|s].
    + destruct e as [|e].
      * rewrite set_range_0_0. now rewrite andb_false_r.
      * rewrite set_range_0_S. destruct i as [|i]; [reflexivity|].
        cbn [nth length]. rewrite IH. reflexivity.
    + rewrite set_range_S. destruct i as [|i]; [reflexivity|].
      cbn [nth length]. rewrite IH.
      replace (Nat.ltb i (e - 1)) with (Nat.ltb (S i) e); [reflexivity|].
      apply eq_true_iff_eq. rewrite !Nat.ltb_lt. lia.
Qed.

Lemma fold_set_range_length (segs : list Segment) c :
  length (fold_left (fun c row => set_range (start row) (end_ row) (Int 0) c) segs c)
  = length c.
Proof.
  revert c; induction segs as [|row segs IH]; intros c; [reflexivity|].
  cbn [fold_left]. now rewrite IH, set_range_length.
Qed.

Lemma fold_set_range_nth (segs : list Segment) c i d :
  i < length c ->
  nth i (fold_left (fun c row => set_range (start row) (end_ row) (Int 0) c) segs c) d
  = if existsb (fun s => Nat.leb (start s) i && Nat.ltb i (end_ s)) segs
    then Int 0 else nth i c d.
Proof.
  revert c; induction segs as [|row segs IH]; intros c Hi; [reflexivity|].
  cbn [fold_left existsb]. rewrite IH by now rewrite set_range_length.
  rewrite set_range_nth. apply Nat.ltb_lt in Hi. rewrite Hi, andb_true_r.
  destruct (existsb _ segs); [now rewrite orb_true_r|]. now rewrite orb_false_r.
Qed.

Lemma filter_predictions_fold (segs : list Segment) name c others :
  fold_left (fun acc row =>
               filtered_results <- acc ;;
               iloc_set filtered_results (start row) (end_ row) 0 (Int 0))
            segs (Ok ((name, c) :: others))
  = Ok ((name,
         fold_left (fun c row => set_range (start row) (end_ row) (Int 0) c) segs c)
          :: others).
Proof.
  revert c; induction segs as [|row segs IH]; intros c; [reflexivity|].
  cbn [fold_left]. rewrite <- IH. reflexivity.
Qed.

(** When "pred" is the first column the filter does what its docstring
    says: the windows of the short expression segments get the prediction 0,
    every other cell stays. *)
Lemma filter_predictions_pred_first values others window_threshold :
  values <> [] ->
  exists rows values',
    find_label_segments (PyDataFrame (("pred", values) :: others)) "pred" = Ok rows /\
    filter_predictions (("pred", values) :: others) window_threshold
      = Ok (("pred", values') :: others) /\
    length values' = length values /\
    forall i, i < length values ->
      nth i values' NaN
      = if short_expression rows window_threshold i then Int 0 else nth i values NaN.
Proof.
  intros Hne.
  destruct (find_label_segments_run (("pred", values) :: others) "pred" values)
    as (segs & _ & _ & _ & Hrows); [reflexivity|exact Hne|].
  eexists; eexists. split; [exact Hrows|].
  unfold filter_predictions. rewrite Hrows. cbn [bind Ok].
  rewrite filter_predictions_fold. split; [reflexivity|].
  split; [apply fold_set_range_length|].
  intros i Hi. now rewrite fold_set_range_nth.
Qed.

(** C6: the filter writes column 0, whatever its name.  On a frame whose
    first column is "Subject", the short segment [[0, 1)] of "pred" zeroes
    the first cell of "Subject" and leaves "pred" as it was. *)
Theorem filter_predictions_overwrites_first_column :
  filter_predictions subject_first 2
  = Ok [("Subject", [Int 0; Int 7; Int 7]); ("pred", [Int 1; Int 0; Int 0])].
Proof. reflexivity. Qed.

End FilterPredictions.

(** ** More on the segment table *)

Section SegmentTable.

Lemma chain_durations a segs b :
  chain a segs b -> list_sum (map (fun se => snd se - fst se) segs) = b - a.
Proof.
  revert a; induction segs as [|[s e] segs IH]; simpl; intros a H; [lia|].
  destruct H as (-> & Hlt & H). rewrite (IH _ H). apply chain_le in H. lia.
Qed.

Lemma chain_length a segs b : chain a segs b -> length segs <= b - a.
Proof.
  revert a; induction segs as [|[s e] segs IH]; simpl; intros a H; [lia|].
  destruct H as (-> & Hlt & H). pose proof (IH _ H). apply chain_le in H. lia.
Qed.

Lemma find_label_segments_row_count df label_column values :
  column df label_column = Some values -> values <> [] ->
  exists rows,
    find_label_segments (PyDataFrame df) label_column = Ok rows /\
    length rows <= length values.
Proof.
  intros Hcol Hne.
  destruct (find_label_segments_run _ _ _ Hcol Hne) as (segs & _ & Hchain & _ & Hrows).
  exists (rows_of values segs). split; [exact Hrows|]. unfold rows_of.
  rewrite length_map. pose proof (chain_length _ _ _ Hchain). lia.
Qed.

(** X1 (duration conservation): on a frame with a non-empty label column
    the durations of the rows of [find_label_segments] add up to the number
    of windows. *)
Theorem find_label_segments_durations_sum df label_column values :
  column df label_column = Some values -> values <> [] ->
  exists rows,
    find_label_segments (PyDataFrame df) label_column = Ok rows /\
    list_sum (map duration rows) = length values /\
    length rows <= length values.
Proof.
  intros Hcol Hne.
  destruct (find_label_segments_run _ _ _ Hcol Hne) as (segs & _ & Hchain & _ & Hrows).
  exists (rows_of values segs). split; [exact Hrows|]. unfold rows_of.
  rewrite map_map, length_map. cbn [duration].
  rewrite (chain_durations _ _ _ Hchain). pose proof (chain_length _ _ _ Hchain). lia.
Qed.

Lemma find_label_segments_durations_sum_witness :
  exists rows,
    find_label_segments (PyDataFrame scenario_A) "pred" = Ok rows /\
    list_sum (map duration rows) = 8 /\
    length rows <= 8.
Proof.
  apply (find_label_segments_durations_sum scenario_A "pred"
           [Int 0; Int 0; Int 1; Int 1; Int 1; Int 0; Int 2; Int 2]);
    [reflexivity|discriminate].
Defined.

(** Two ranges that follow each other meet at a change point. *)
Lemma consecutive_ranges (a : nat) (ch : list nat) n k s e s' e' :
  nth_error (combine (a :: ch) (ch ++ [n])%list) k = Some (s, e) ->
  nth_error (combine (a :: ch) (ch ++ [n])%list) (S k) = Some (s', e') ->
  s' = e /\ In e ch.
Proof.
  revert a k; induction ch as [|c ch IH]; intros a k Hk Hk'.
  - simpl in Hk'. destruct k; discriminate.
  - destruct k as [|k].
    + simpl in Hk. inversion Hk; subst.
      change (nth_error (combine (e :: ch) (ch ++ [n])%list) 0 = Some (s', e')) in Hk'.
      destruct ch; simpl in Hk'; inversion Hk'; subst; split; auto; now left.
    + change (nth_error (combine (c :: ch) (ch ++ [n])%list) k = Some (s, e)) in Hk.
      change (nth_error (combine (c :: ch) (ch ++ [n])%list) (S k) = Some (s', e')) in Hk'.
      destruct (IH _ _ Hk Hk') as [Heq Hin]. split; [exact Heq|now right].
Qed.

Lemma change_point_differs values e :
  In e (map S (flatnonzero (adjacent_neq values))) ->
  0 < e < length values /\
  cell_neb (nth (e - 1) values NaN) (nth e values NaN) = true.
Proof.
  intros H. apply in_map_iff in H. destruct H as (j & <- & Hj).
  pose proof (flatnonzero_from_bounds _ _ _ Hj) as Hb.
  rewrite adjacent_neq_length in Hb.
  apply flatnonzero_from_spec in Hj. destruct Hj as [_ Hj].
  rewrite Nat.sub_0_r in Hj. rewrite adjacent_neq_nth in Hj by lia.
  split; [lia|]. now replace (S j - 1) with j by lia.
Qed.

Lemma cell_same_eqb_congr a b c :
  cell_same a b = true -> cell_eqb a c = cell_eqb b c.
Proof.
  intros Hab. destruct a, b; simpl in Hab; try discriminate; try reflexivity;
    destruct c; simpl; try reflexivity;
    rewrite ?Qeq_bool_iff, ?String.eqb_eq in Hab;
    try (apply eq_true_iff_eq; rewrite ?Qeq_bool_iff;
         split; intros H; rewrite <- H || rewrite H; try rewrite Hab; reflexivity);
    try (subst; reflexivity).
Qed.

(** X2 (maximal runs): consecutive rows of [find_label_segments] meet
    ([end] of one is [start] of the next) and carry labels that differ
    ([!=]), so no run could be extended. *)
Theorem find_label_segments_maximal df label_column values :
  column df label_column = Some values -> values <> [] ->
  exists rows,
    find_label_segments (PyDataFrame df) label_column = Ok rows /\
    forall k r r',
      nth_error rows k = Some r -> nth_error rows (S k) = Some r' ->
      end_ r = start r' /\ cell_neb (label r) (label r') = true.
Proof.
  intros Hcol Hne.
  destruct (find_label_segments_run _ _ _ Hcol Hne) as (segs & Hrun & Hchain & _ & Hrows).
  exists (rows_of values segs). split; [exact Hrows|].
  intros k r r' Hk Hk'. unfold rows_of in Hk, Hk'.
  rewrite nth_error_map in Hk, Hk'.
  destruct (nth_error segs k) as [[s e]|] eqn:Ek; [|discriminate].
  destruct (nth_error segs (S k)) as [[s' e']|] eqn:Ek'; [|discriminate].
  inversion Hk; inversion Hk'; subst r r'; clear Hk Hk'. cbn [start end_ label fst snd].
  pose proof Hrun as Hrun'. unfold find_subsegments_indices in Hrun'.
  destruct (Nat.eqb (length values) 0); [discriminate|].
  inversion Hrun' as [Hsegs]; clear Hrun'.
  rewrite <- Hsegs in Ek, Ek'.
  destruct (consecutive_ranges _ _ _ _ _ _ _ _ Ek Ek') as [-> Hin].
  rewrite Hsegs in Ek. apply nth_error_In in Ek.
  destruct (change_point_differs _ _ Hin) as [Hbound Hdiff].
  split; [reflexivity|].
  destruct (chain_In _ _ _ _ _ Hchain Ek) as (_ & Hse & Hle).
  pose proof (find_subsegments_indices_homogeneous _ _ _ _ Hrun Ek Hle (e - 1)) as Hsame.
  unfold cell_neb in *. rewrite (cell_same_eqb_congr _ _ _ (Hsame ltac:(lia))).
  exact Hdiff.
Qed.

Lemma find_label_segments_maximal_witness :
  exists rows,
    find_label_segments (PyDataFrame scenario_A) "pred" = Ok rows /\
    forall k r r',
      nth_error rows k = Some r -> nth_error rows (S k) = Some r' ->
      end_ r = start r' /\ cell_neb (label r) (label r') = true.
Proof.
  apply (find_label_segments_maximal scenario_A "pred"
           [Int 0; Int 0; Int 1; Int 1; Int 1; Int 0; Int 2; Int 2]);
    [reflexivity|discriminate].
Defined.

Lemma cell_eqb_sym a b : cell_eqb a b = cell_eqb b a.
Proof.
  destruct a, b; simpl; try reflexivity;
    try (apply eq_true_iff_eq; rewrite !Qeq_bool_iff; split; intros H; now symmetry).
  apply String.eqb_sym.
Qed.

Lemma cell_eqb_nan_r a : cell_eqb a NaN = false.
Proof. now destruct a. Qed.

Lemma flatnonzero_constant v values i :
  (forall c, In c values -> cell_eqb v c = true) ->
  flatnonzero_from i (adjacent_neq (v :: values)) = [].
Proof.
  revert v i; induction values as [|w values IH]; intros v i Hall; [reflexivity|].
  rewrite adjacent_neq_cons. cbn [flatnonzero_from]. unfold cell_neb.
  rewrite (Hall w) by now left. cbn [negb]. apply IH.
  intros c Hc. eapply cell_eqb_trans; [|apply Hall; now right].
  rewrite cell_eqb_sym. apply Hall. now left.
Qed.

(** X3 (one run): a label column whose cells all equal the first one gives
    exactly one row, covering the whole column and labelled with the first
    cell. *)
Theorem find_label_segments_constant df label_column v values :
  column df label_column = Some (v :: values) ->
  (forall c, In c values -> cell_eqb v c = true) ->
  find_label_segments (PyDataFrame df) label_column
  = Ok [mkSegment 0 (S (length values)) (S (length values)) v].
Proof.
  intros Hcol Hall.
  destruct (find_label_segments_run _ _ _ Hcol) as (segs & Hrun & _ & _ & Hrows);
    [discriminate|].
  unfold find_subsegments_indices in Hrun. cbn [length Nat.eqb] in Hrun.
  unfold flatnonzero in Hrun. rewrite (flatnonzero_constant _ _ _ Hall) in Hrun.
  inversion Hrun; subst segs. exact Hrows.
Qed.

Lemma find_label_segments_constant_witness :
  find_label_segments (PyDataFrame scenario_D) "pred" = Ok [mkSegment 0 4 4 (Int 0)].
Proof.
  apply (find_label_segments_constant scenario_D "pred" (Int 0) [Int 0; Int 0; Int 0]).
  - reflexivity.
  - intros c Hc. simpl in Hc. intuition (subst; reflexivity).
Defined.

(** X4 (missing labels): a NaN in the label column never joins a run; the
    row that covers its window covers that window alone. *)
Theorem find_label_segments_nan_alone df label_column values :
  column df label_column = Some values -> values <> [] ->
  exists rows,
    find_label_segments (PyDataFrame df) label_column = Ok rows /\
    forall row i,
      In row rows -> start row <= i < end_ row -> nth i values NaN = NaN ->
      i < length values ->
      start row = i /\ end_ row = S i /\ label row = NaN.
Proof.
  intros Hcol Hne.
  destruct (find_label_segments_run _ _ _ Hcol Hne) as (segs & Hrun & Hchain & _ & Hrows).
  exists (rows_of values segs). split; [exact Hrows|].
  intros row i Hin Hi Hnan Hlen. unfold rows_of in Hin. apply in_map_iff in Hin.
  destruct Hin as ([s e] & <- & Hin). cbn [start end_ label fst snd] in *.
  destruct (chain_In _ _ _ _ _ Hchain Hin) as (_ & Hse & Hle).
  assert (Hs : s = i).
  { destruct (Nat.eq_dec s i) as [|Hneq]; [assumption|].
    pose proof (find_subsegments_indices_adjacent _ _ _ _ i Hrun Hin ltac:(lia) Hlen) as H.
    rewrite Hnan, cell_eqb_nan_r in H. discriminate. }
  assert (He : e = S i).
  { destruct (Nat.eq_dec e (S i)) as [|Hneq]; [assumption|].
    pose proof (find_subsegments_indices_adjacent _ _ _ _ (S i) Hrun Hin
                  ltac:(lia) ltac:(lia)) as H.
    replace (S i - 1) with i in H by lia. rewrite Hnan in H. discriminate. }
  subst. auto.
Qed.

Lemma find_label_segments_nan_alone_witness :
  exists rows,
    find_label_segments (PyDataFrame [("pred", [NaN; NaN; Int 1])]) "pred" = Ok rows /\
    forall row i,
      In row rows -> start row <= i < end_ row -> nth i [NaN; NaN; Int 1] NaN = NaN ->
      i < 3 ->
      start row = i /\ end_ row = S i /\ label row = NaN.
Proof.
  apply (find_label_segments_nan_alone [("pred", [NaN; NaN; Int 1])] "pred"
           [NaN; NaN; Int 1]); [reflexivity|discriminate].
Defined.

Lemma slice_empty {A : Type} s e (l : list A) :
  Nat.ltb s e && Nat.ltb s (length l) = false -> slice s e l = [].
Proof.
  unfold slice. intros H. apply andb_false_iff in H.
  destruct H as [H|H]; apply Nat.ltb_ge in H.
  - replace (e - s) with 0 by lia. reflexivity.
  - rewrite skipn_all2 by lia. apply firstn_nil.
Qed.

(** X5 (labels of arbitrary ranges): [get_segment_label] returns the cell at
    the start of every range that selects at least one row and silently
    skips the ranges that select none (empty, reversed or beyond the last
    row), so it can return fewer labels than ranges. *)
Theorem get_segment_label_skips_empty df label_column values segments :
  column df label_column = Some values ->
  get_segment_label (PyDataFrame df) segments label_column
  = Ok (map (fun seg => nth (fst seg) values NaN)
            (filter (fun seg => Nat.ltb (fst seg) (snd seg)
                                && Nat.ltb (fst seg) (length values)) segments)).
Proof.
  intros Hcol. destruct (column_get_loc _ _ _ Hcol) as (j & Hj & Hnth).
  unfold get_segment_label. rewrite Hj. f_equal. unfold segment_labels.
  induction segments as [|[s e] segments IH]; [reflexivity|].
  cbn [flat_map filter fst snd]. rewrite IH. unfold iloc. rewrite Hnth.
  destruct (Nat.ltb s e && Nat.ltb s (length values)) eqn:Hsel.
  - apply andb_true_iff in Hsel. destruct Hsel as [Hse Hs].
    apply Nat.ltb_lt in Hse, Hs.
    destruct (slice_head NaN s e values Hse Hs) as [rest Hrest]. rewrite Hrest.
    reflexivity.
  - rewrite (slice_empty _ _ _ Hsel). reflexivity.
Qed.

Lemma get_segment_label_skips_empty_witness :
  get_segment_label (PyDataFrame scenario_A) [(2, 5); (5, 5); (7, 3); (9, 12)] "pred"
  = Ok (map (fun seg => nth (fst seg)
                          [Int 0; Int 0; Int 1; Int 1; Int 1; Int 0; Int 2; Int 2] NaN)
            (filter (fun seg => Nat.ltb (fst seg) (snd seg) && Nat.ltb (fst seg) 8)
                    [(2, 5); (5, 5); (7, 3); (9, 12)])).
Proof.
  apply (get_segment_label_skips_empty scenario_A "pred"
           [Int 0; Int 0; Int 1; Int 1; Int 1; Int 0; Int 2; Int 2]).
  reflexivity.
Defined.

End SegmentTable.

(** ** More on counts and durations *)

Section CountsAndDurations.



Lemma drop_background_length rows : length (drop_background rows) <= length rows.
Proof. unfold drop_background. apply filter_length_le. Qed.

(** X7 (total count): with [group=False] the count is the number of rows of
    the segment table whose label is not 0; the mapping has no influence on
    it, and it never exceeds the number of windows. *)
Theorem get_num_expressions_total_count results mapping values :
  column results "pred" = Some values -> values <> [] ->
  exists rows,
    find_label_segments (PyDataFrame results) "pred" = Ok rows /\
    get_num_expressions results mapping false
    = Ok [("expression_count", [Int (Z.of_nat (length (drop_background rows)))])] /\
    get_num_expressions results mapping false = get_num_expressions results None false /\
    length (drop_background rows) <= length values.
Proof.
  intros Hcol Hne.
  destruct (find_label_segments_row_count results "pred" values Hcol Hne)
    as (rows & Hrows & Hlen).
  exists rows. split; [exact Hrows|].
  assert (Hany : forall mp, get_num_expressions results mp false
            = Ok [("expression_count", [Int (Z.of_nat (length (drop_background rows)))])]).
  { intros mp. rewrite (get_num_expressions_total mp _ _ Hrows).
    unfold qualifying, map_labels. destruct mp; [now rewrite length_map|reflexivity]. }
  split; [apply Hany|]. split; [now rewrite !Hany|].
  pose proof (drop_background_length rows). lia.
Qed.

Lemma get_num_expressions_total_count_witness :
  exists rows,
    find_label_segments (PyDataFrame scenario_A) "pred" = Ok rows /\
    get_num_expressions scenario_A (Some mapping_AC) false
    = Ok [("expression_count", [Int (Z.of_nat (length (drop_background rows)))])] /\
    get_num_expressions scenario_A (Some mapping_AC) false
    = get_num_expressions scenario_A None false /\
    length (drop_background rows) <= 8.
Proof.
  apply (get_num_expressions_total_count scenario_A (Some mapping_AC)
           [Int 0; Int 0; Int 1; Int 1; Int 1; Int 0; Int 2; Int 2]);
    [reflexivity|discriminate].
Defined.

Lemma exclusive_groups (a b : Z) (l : cell) :
  a <> b -> cell_same l (Int a) = true -> cell_same l (Int b) = false.
Proof.
  intros Hab Ha. destruct (cell_same l (Int b)) eqn:Hb; [|reflexivity].
  assert (H : cell_same (Int a) (Int b) = true).
  { eapply cell_same_trans; [|exact Hb]. now rewrite cell_same_sym. }
  simpl in H. apply Qeq_bool_iff in H. unfold Qeq in H. simpl in H. lia.
Qed.

Lemma three_groups_le (segs : list Segment) :
  length (group_of segs (Int 1)) + length (group_of segs (Int 2))
  + length (group_of segs (Int 3)) <= length segs.
Proof.
  unfold group_of. cbn [is_nan].
  induction segs as [|s segs IH]; [reflexivity|]. cbn [filter length].
  destruct (cell_same (label s) (Int 1)) eqn:H1.
  - rewrite (exclusive_groups 1 2 _ ltac:(lia) H1), (exclusive_groups 1 3 _ ltac:(lia) H1).
    cbn [length]. lia.
  - destruct (cell_same (label s) (Int 2)) eqn:H2.
    + rewrite (exclusive_groups 2 3 _ ltac:(lia) H2). cbn [length]. lia.
    + destruct (cell_same (label s) (Int 3)); cbn [length]; lia.
Qed.

Lemma three_groups_eq (segs : list Segment) :
  (forall s, In s segs -> label s = Int 1 \/ label s = Int 2 \/ label s = Int 3) ->
  length (group_of segs (Int 1)) + length (group_of segs (Int 2))
  + length (group_of segs (Int 3)) = length segs.
Proof.
  unfold group_of. cbn [is_nan].
  induction segs as [|s segs IH]; intros Hall; [reflexivity|]. cbn [filter length].
  specialize (IH (fun s' Hs' => Hall s' (or_intror Hs'))).
  destruct (Hall s (or_introl eq_refl)) as [H | [H | H]]; rewrite H; cbn; lia.
Qed.

Lemma rows_of_label_In values segs a row :
  chain a segs (length values) -> In row (rows_of values segs) ->
  In (label row) values /\ 1 <= duration row /\
  duration row = end_ row - start row.
Proof.
  intros Hchain Hin. unfold rows_of in Hin. apply in_map_iff in Hin.
  destruct Hin as ([s e] & <- & Hin). cbn [label duration start end_ fst snd].
  destruct (chain_In _ _ _ _ _ Hchain Hin) as (_ & Hse & Hle).
  split; [apply nth_In; lia|lia].
Qed.

(** X8 (per-label counts without a mapping): the counts of the labels 1, 2
    and 3 never add up to more than the total count, and they add up to it
    when every label of the column is 0, 1, 2 or 3; expression segments with
    another label are counted in the total only. *)
Theorem get_num_expressions_counts_sum results values :
  column results "pred" = Some values -> values <> [] ->
  exists c1 c2 c3 n,
    get_num_expressions results None true
    = Ok [("label", [Int 1; Int 2; Int 3]);
          ("expression_count",
           [Int (Z.of_nat c1); Int (Z.of_nat c2); Int (Z.of_nat c3)])] /\
    get_num_expressions results None false
    = Ok [("expression_count", [Int (Z.of_nat n)])] /\
    c1 + c2 + c3 <= n /\
    ((forall c, In c values -> c = Int 0 \/ c = Int 1 \/ c = Int 2 \/ c = Int 3) ->
     c1 + c2 + c3 = n).
Proof.
  intros Hcol Hne.
  destruct (find_label_segments_run _ _ _ Hcol Hne) as (segs & _ & Hchain & _ & Hrows).
  exists (length (group_of (drop_background (rows_of values segs)) (Int 1))),
         (length (group_of (drop_background (rows_of values segs)) (Int 2))),
         (length (group_of (drop_background (rows_of values segs)) (Int 3))),
         (length (drop_background (rows_of values segs))).
  split; [exact (get_num_expressions_grouped None _ _ Hrows)|].
  split; [exact (get_num_expressions_total None _ _ Hrows)|].
  split; [apply three_groups_le|].
  intros Hlabels. apply three_groups_eq. intros s Hs.
  unfold drop_background in Hs. apply filter_In in Hs. destruct Hs as [Hs Hbg].
  destruct (rows_of_label_In _ _ _ _ Hchain Hs) as (Hin & _).
  destruct (Hlabels _ Hin) as [H0|H]; [|exact H].
  rewrite H0 in Hbg. discriminate.
Qed.

Lemma get_num_expressions_counts_sum_witness :
  exists c1 c2 c3 n,
    get_num_expressions [("pred", [Int 1; Int 0; Int 4; Int 2; Int 2])] None true
    = Ok [("label", [Int 1; Int 2; Int 3]);
          ("expression_count",
           [Int (Z.of_nat c1); Int (Z.of_nat c2); Int (Z.of_nat c3)])] /\
    get_num_expressions [("pred", [Int 1; Int 0; Int 4; Int 2; Int 2])] None false
    = Ok [("expression_count", [Int (Z.of_nat n)])] /\
    c1 + c2 + c3 <= n /\
    ((forall c, In c [Int 1; Int 0; Int 4; Int 2; Int 2] ->
                c = Int 0 \/ c = Int 1 \/ c = Int 2 \/ c = Int 3) ->
     c1 + c2 + c3 = n).
Proof.
  apply (get_num_expressions_counts_sum [("pred", [Int 1; Int 0; Int 4; Int 2; Int 2])]
           [Int 1; Int 0; Int 4; Int 2; Int 2]); [reflexivity|discriminate].
Defined.

Lemma find_label_segments_absent df label_column :
  column df label_column = None ->
  find_label_segments (PyDataFrame df) label_column = Raise ColumnNotFoundError.
Proof.
  intros Hcol. unfold find_label_segments.
  destruct (has_column df label_column) eqn:Hhas; [|reflexivity].
  apply has_column_spec in Hhas. congruence.
Qed.

Lemma find_label_segments_empty df label_column :
  column df label_column = Some [] ->
  find_label_segments (PyDataFrame df) label_column = Raise EmptyInputError.
Proof.
  intros Hcol. unfold find_label_segments.
  assert (Hhas : has_column df label_column = true) by (apply has_column_spec; congruence).
  rewrite Hhas, Hcol. reflexivity.
Qed.

(** X9 (errors pass through): on a table without a "pred" column every
    consumer of the segment table (count, duration, short-segment filter,
    and the intensity aggregator for its own label column) raises the
    column-not-found ValueError of [find_label_segments], and on a table with
    no rows its empty-input ValueError; none of them returns a zero-filled
    result there. *)
Theorem segment_errors_propagate (results : DataFrame) (label_col : string) :
  (column results "pred" = None ->
   forall mapping group average window_threshold,
     get_num_expressions results mapping group = Raise ColumnNotFoundError /\
     get_expression_duration results mapping average group = Raise ColumnNotFoundError /\
     filter_predictions results window_threshold = Raise ColumnNotFoundError) /\
  (column results "pred" = Some [] ->
   forall mapping group average window_threshold,
     get_num_expressions results mapping group = Raise EmptyInputError /\
     get_expression_duration results mapping average group = Raise EmptyInputError /\
     filter_predictions results window_threshold = Raise EmptyInputError) /\
  (column results label_col = None ->
   forall mapping group_labels intensity_threshold,
     get_mean_intensities results mapping group_labels intensity_threshold label_col
     = Raise ColumnNotFoundError) /\
  (column results label_col = Some [] ->
   forall mapping group_labels intensity_threshold,
     get_mean_intensities results mapping group_labels intensity_threshold label_col
     = Raise EmptyInputError).
Proof.
  split; [|split; [|split]].
  - intros Hcol mapping group average thr.
    unfold get_num_expressions, get_expression_duration, filter_predictions.
    rewrite (find_label_segments_absent _ _ Hcol). auto.
  - intros Hcol mapping group average thr.
    unfold get_num_expressions, get_expression_duration, filter_predictions.
    rewrite (find_label_segments_empty _ _ Hcol). auto.
  - intros Hcol mapping group_labels thr. unfold get_mean_intensities.
    now rewrite (find_label_segments_absent _ _ Hcol).
  - intros Hcol mapping group_labels thr. unfold get_mean_intensities.
    now rewrite (find_label_segments_empty _ _ Hcol).
Qed.












End CountsAndDurations.

(** ** More on intensities *)

Section Intensities.





Lemma intensities_per_segment_labels mapping segments intensity_data thr :
  intensities_per_segment (map_labels mapping segments) intensity_data thr
  = intensities_per_segment segments intensity_data thr.
Proof.
  unfold map_labels. destruct mapping as [m|]; [|reflexivity].
  induction segments as [|row segments IH]; [reflexivity|].
  cbn [map intensities_per_segment]. rewrite IH. reflexivity.
Qed.

(** X13 (overall mean and the mapping): with [group_labels=False] the
    label mapping has no effect on the result of [get_mean_intensities]. *)
Theorem get_mean_intensities_mapping_irrelevant intensity_data mapping
        intensity_threshold label_col :
  get_mean_intensities intensity_data mapping false intensity_threshold label_col
  = get_mean_intensities intensity_data None false intensity_threshold label_col.
Proof.
  unfold get_mean_intensities.
  destruct (find_label_segments (PyDataFrame intensity_data) label_col) as [e|rows];
    [reflexivity|].
  cbn [bind]. destruct (Nat.eqb (length (drop_background rows)) 0); [reflexivity|].
  unfold get_intensities_per_segments.
  now rewrite intensities_per_segment_labels.
Qed.

Lemma group_by_label_groups segs k g :
  In (k, g) (groupby_label segs) -> exists s rest, g = s :: rest.
Proof.
  unfold groupby_label, group_by. intros H. apply in_map_iff in H.
  destruct H as (k' & Heq & Hk'). inversion Heq; subst k' g; clear Heq.
  destruct (group_keys_label _ _ Hk') as (_ & s & Hs & Hlabel).
  assert (Hin : In s (filter (fun r => cell_same (label r) k) segs)).
  { apply filter_In. split; [exact Hs|]. rewrite Hlabel. apply cell_same_refl. }
  destruct (filter _ segs) as [|s' rest]; [contradiction|eauto].
Qed.

Lemma get_intensities_per_segments_no_column intensity_data row rest thr :
  column intensity_data "Intensity" = None ->
  get_intensities_per_segments (row :: rest) intensity_data thr
  = Raise (KeyError "Intensity").
Proof.
  intros Hcol. unfold get_intensities_per_segments. cbn [intensities_per_segment].
  unfold segment_intensity. now rewrite Hcol.
Qed.

(** X14 (the intensity column is read late): on a table without an
    "Intensity" column [get_mean_intensities] still returns its zero result
    when the label column has no expression segment, and raises
    KeyError "Intensity" as soon as there is one (with [group_labels=True]:
    as soon as one keeps a label after the mapping). *)
Theorem get_mean_intensities_no_intensity_column intensity_data label_col values :
  column intensity_data "Intensity" = None ->
  column intensity_data label_col = Some values -> values <> [] ->
  exists rows,
    find_label_segments (PyDataFrame intensity_data) label_col = Ok rows /\
    (drop_background rows = [] ->
     forall mapping thr,
       get_mean_intensities intensity_data mapping false thr label_col
       = Ok (Scalar (Int 0)) /\
       get_mean_intensities intensity_data mapping true thr label_col
       = Ok (PerLabel [("label", canonical_labels mapping);
                       ("Expression Intensity",
                        repeat (Int 0) (length (canonical_labels mapping)))])) /\
    (drop_background rows <> [] ->
     forall mapping thr,
       get_mean_intensities intensity_data mapping false thr label_col
       = Raise (KeyError "Intensity") /\
       ((exists s, In s (qualifying mapping rows) /\ is_nan (label s) = false) ->
        get_mean_intensities intensity_data mapping true thr label_col
        = Raise (KeyError "Intensity"))).
Proof.
  intros Hicol Hcol Hne.
  destruct (find_label_segments_run _ _ _ Hcol Hne) as (segs & _ & _ & _ & Hrows).
  exists (rows_of values segs). split; [exact Hrows|].
  unfold get_mean_intensities. rewrite Hrows. cbn [bind Ok].
  split.
  - intros ->. intros mapping thr. split; reflexivity.
  - intros Hsome mapping thr.
    destruct (drop_background (rows_of values segs)) as [|s0 rest] eqn:Hdrop; [congruence|].
    cbn [length Nat.eqb]. split.
    + assert (Hmapped : exists s1 rest1, map_labels mapping (s0 :: rest) = s1 :: rest1).
      { unfold map_labels. destruct mapping; cbn [map]; eauto. }
      destruct Hmapped as (s1 & rest1 & ->).
      now rewrite (get_intensities_per_segments_no_column _ _ _ _ Hicol).
    + intros (s & Hs & Hnan). unfold qualifying in Hs. rewrite Hdrop in Hs.
      pose proof (groupby_label_nonempty _ _ Hs Hnan) as Hgroups.
      destruct (groupby_label (map_labels mapping (s0 :: rest))) as [|[k g] groups] eqn:Hg;
        [congruence|].
      destruct (group_by_label_groups (map_labels mapping (s0 :: rest)) k g)
        as (s1 & rest1 & ->); [rewrite Hg; now left|].
      cbn [mapM fst snd].
      now rewrite (get_intensities_per_segments_no_column _ _ _ _ Hicol).
Qed.

Lemma get_mean_intensities_no_intensity_column_witness :
  exists rows,
    find_label_segments (PyDataFrame scenario_A) "pred" = Ok rows /\
    (drop_background rows = [] ->
     forall mapping thr,
       get_mean_intensities scenario_A mapping false thr "pred" = Ok (Scalar (Int 0)) /\
       get_mean_intensities scenario_A mapping true thr "pred"
       = Ok (PerLabel [("label", canonical_labels mapping);
                       ("Expression Intensity",
                        repeat (Int 0) (length (canonical_labels mapping)))])) /\
    (drop_background rows <> [] ->
     forall mapping thr,
       get_mean_intensities scenario_A mapping false thr "pred"
       = Raise (KeyError "Intensity") /\
       ((exists s, In s (qualifying mapping rows) /\ is_nan (label s) = false) ->
        get_mean_intensities scenario_A mapping true thr "pred"
        = Raise (KeyError "Intensity"))).
Proof.
  apply (get_mean_intensities_no_intensity_column scenario_A "pred"
           [Int 0; Int 0; Int 1; Int 1; Int 1; Int 0; Int 2; Int 2]);
    [reflexivity|reflexivity|discriminate].
Defined.

End Intensities.

(** ** More on the short-segment filter *)

Section FilterMore.

(** X15 (what the filter writes): on a table with a non-empty "pred" column
    [filter_predictions] returns the table with its first column, whatever
    its name, set to 0 at exactly the windows of the expression segments of
    "pred" that last at most [window_threshold] windows; all other cells,
    the names and the number of rows stay. *)
Theorem filter_predictions_first_column name c rest values window_threshold :
  column ((name, c) :: rest) "pred" = Some values -> values <> [] ->
  exists rows c',
    find_label_segments (PyDataFrame ((name, c) :: rest)) "pred" = Ok rows /\
    filter_predictions ((name, c) :: rest) window_threshold = Ok ((name, c') :: rest) /\
    length c' = length c /\
    forall i, i < length c ->
      nth i c' NaN = if short_expression rows window_threshold i then Int 0 else nth i c NaN.
Proof.
  intros Hcol Hne.
  destruct (find_label_segments_run _ _ _ Hcol Hne) as (segs & _ & _ & _ & Hrows).
  eexists; eexists. split; [exact Hrows|].
  unfold filter_predictions. rewrite Hrows. cbn [bind Ok].
  rewrite filter_predictions_fold. split; [reflexivity|].
  split; [apply fold_set_range_length|].
  intros i Hi. now rewrite fold_set_range_nth.
Qed.

Lemma filter_predictions_first_column_witness :
  exists rows c',
    find_label_segments (PyDataFrame subject_first) "pred" = Ok rows /\
    filter_predictions subject_first 2 = Ok (("Subject", c') :: [("pred", [Int 1; Int 0; Int 0])]) /\
    length c' = 3 /\
    forall i, i < 3 ->
      nth i c' NaN
      = if short_expression rows 2 i then Int 0 else nth i [Int 7; Int 7; Int 7] NaN.
Proof.
  apply (filter_predictions_first_column "Subject" [Int 7; Int 7; Int 7]
           [("pred", [Int 1; Int 0; Int 0])] [Int 1; Int 0; Int 0] 2);
    [reflexivity|discriminate].
Defined.

(** X16 (a threshold below one window): every segment lasts at least one
    window, so with [window_threshold < 1] the filter returns the table
    unchanged. *)
Theorem filter_predictions_small_threshold results values window_threshold :
  column results "pred" = Some values -> values <> [] ->
  (window_threshold < 1)%Z ->
  filter_predictions results window_threshold = Ok results.
Proof.
  intros Hcol Hne Hthr.
  destruct (find_label_segments_run _ _ _ Hcol Hne) as (segs & _ & Hchain & _ & Hrows).
  unfold filter_predictions. rewrite Hrows. cbn [bind Ok].
  rewrite filter_nil; [reflexivity|].
  intros s Hs. unfold drop_background in Hs. apply filter_In in Hs. destruct Hs as [Hs _].
  destruct (rows_of_label_In _ _ _ _ Hchain Hs) as (_ & Hd & _).
  apply Z.leb_gt. lia.
Qed.

Lemma filter_predictions_small_threshold_witness :
  filter_predictions scenario_A 0 = Ok scenario_A.
Proof.
  apply (filter_predictions_small_threshold scenario_A
           [Int 0; Int 0; Int 1; Int 1; Int 1; Int 0; Int 2; Int 2] 0);
    [reflexivity|discriminate|lia].
Defined.

End FilterMore.

(** ** More on the grouped count *)

Section GroupedCountMore.

Lemma deref_update_other h l v l' : l' <> l -> deref (update h l v) l' = deref h l'.
Proof.
  unfold deref. revert l l'; induction h as [|x h IH]; intros l l' Hne.
  - reflexivity.
  - destruct l as [|l]; destruct l' as [|l']; cbn [update nth]; try reflexivity.
    + congruence.
    + apply IH. congruence.
Qed.

Lemma deref_update_same h l v :
  deref (update h l v) l = if Nat.ltb l (length h) then v else deref h l.
Proof.
  unfold deref. revert l; induction h as [|x h IH]; intros l.
  - reflexivity.
  - destruct l as [|l]; cbn [update nth length]; [reflexivity|].
    rewrite IH. reflexivity.
Qed.

Lemma update_length h l v : length (update h l v) = length h.
Proof.
  revert l; induction h as [|x h IH]; intros l; [reflexivity|].
  destruct l; cbn [update length]; [reflexivity|now rewrite IH].
Qed.

Lemma heap_after_call results grouping_columns mapping group_labels normalize scaler h l :
  l = match grouping_columns with
      | Some l => l
      | None => default_grouping_columns
      end ->
  length (snd (get_grouped_num_expressions results grouping_columns mapping
                 group_labels normalize scaler h)) = length h /\
  (forall l', l' <> l ->
     deref (snd (get_grouped_num_expressions results grouping_columns mapping
                   group_labels normalize scaler h)) l' = deref h l') /\
  (deref (snd (get_grouped_num_expressions results grouping_columns mapping
                 group_labels normalize scaler h)) l = deref h l \/
   (group_labels = true /\ normalize = true /\
    contains (deref h l) "Video" = false /\
    deref (snd (get_grouped_num_expressions results grouping_columns mapping
                  group_labels normalize scaler h)) l
    = (deref h l ++ ["label"])%list)).
Proof.
  intros Hl. unfold get_grouped_num_expressions. rewrite <- Hl.
  destruct normalize; [|cbn [snd]; auto].
  destruct (contains (deref h l) "Video") eqn:Hvideo; cbn [negb]; [cbn [snd]; auto|].
  destruct (bind _ _) as [e|normalized_data]; [cbn [snd]; auto|].
  destruct group_labels; cbn [snd]; [|auto].
  unfold append. split; [apply update_length|].
  split; [intros l' Hne; now apply deref_update_other|].
  rewrite deref_update_same. destruct (Nat.ltb l (length h)); [|now left].
  right. auto.
Qed.

(** X17 (what a call leaves behind): [get_grouped_num_expressions] changes
    no list but the one it was given as [grouping_columns], and that one
    only by appending "label" once, which happens only with
    [normalize=True] and [group_labels=True] on a list without "Video". *)
Theorem get_grouped_num_expressions_frame results grouping_columns mapping
        group_labels normalize scaler h :
  let l := match grouping_columns with
           | Some l => l
           | None => default_grouping_columns
           end in
  let h' := snd (get_grouped_num_expressions results grouping_columns mapping
                   group_labels normalize scaler h) in
  length h' = length h /\
  (forall l', l' <> l -> deref h' l' = deref h l') /\
  (deref h' l = deref h l \/
   (group_labels = true /\ normalize = true /\
    contains (deref h l) "Video" = false /\
    deref h' l = (deref h l ++ ["label"])%list)).
Proof.
  intros l h'. subst h'. now apply heap_after_call.
Qed.

(** X18 (the default list): as long as the default list of
    [grouping_columns] contains "Video", which it does initially, no call
    changes it, whatever list the call is given; a call that leaves the
    default leaves every list as it was. *)
Theorem default_grouping_columns_kept h :
  contains (deref h default_grouping_columns) "Video" = true ->
  (forall results grouping_columns mapping group_labels normalize scaler,
      deref (snd (get_grouped_num_expressions results grouping_columns mapping
                    group_labels normalize scaler h)) default_grouping_columns
      = deref h default_grouping_columns) /\
  (forall results mapping group_labels normalize scaler,
      snd (get_grouped_num_expressions results None mapping group_labels normalize
             scaler h) = h).
Proof.
  intros Hvideo. split.
  - intros results grouping_columns mapping group_labels normalize scaler.
    destruct (heap_after_call results grouping_columns mapping group_labels normalize
                scaler h _ eq_refl) as (_ & Hother & Hsame).
    destruct grouping_columns as [l|].
    + destruct (Nat.eq_dec default_grouping_columns l) as [<-|Hne].
      * destruct Hsame as [H|(_ & _ & Hno & _)]; [exact H|congruence].
      * now apply Hother.
    + destruct Hsame as [H|(_ & _ & Hno & _)]; [exact H|congruence].
  - intros results mapping group_labels normalize scaler.
    destruct normalize.
    + now rewrite normalize_with_video.
    + reflexivity.
Qed.

Lemma default_grouping_columns_kept_witness :
  (forall results grouping_columns mapping group_labels normalize scaler,
      deref (snd (get_grouped_num_expressions results grouping_columns mapping
                    group_labels normalize scaler caller_heap)) default_grouping_columns
      = deref caller_heap default_grouping_columns) /\
  (forall results mapping group_labels normalize scaler,
      snd (get_grouped_num_expressions results None mapping group_labels normalize
             scaler caller_heap) = caller_heap).
Proof.
  apply (default_grouping_columns_kept caller_heap). reflexivity.
Defined.

Lemma get_columns_missing df (pre : list string) k post :
  (forall c, In c pre -> column df c <> None) -> column df k = None ->
  get_columns df (pre ++ k :: post)%list = Raise (KeyError k).
Proof.
  intros Hpre Hk. unfold get_columns.
  induction pre as [|c pre IH]; cbn [app mapM].
  - now rewrite Hk.
  - destruct (column df c) eqn:Hc; [|now elim (Hpre c (or_introl eq_refl))].
    cbn [bind Ok]. rewrite IH; [reflexivity|].
    intros c' Hc'. apply Hpre. now right.
Qed.

Lemma groupby_missing df (pre : list string) k post :
  (forall c, In c pre -> column df c <> None) -> column df k = None ->
  groupby df (pre ++ k :: post)%list = Raise (KeyError k).
Proof.
  intros Hpre Hk. unfold groupby.
  destruct (pre ++ k :: post)%list as [|k0 keys] eqn:Hkeys.
  - destruct pre; discriminate.
  - rewrite <- Hkeys, (get_columns_missing _ _ _ _ Hpre Hk). reflexivity.
Qed.

(** X19 (a grouping column the table lacks): the grouped count raises
    KeyError for the first column of its grouping key that the table does not
    have (with [normalize=True] the key is the caller's list followed by
    "Video"), before any group is counted, and leaves every list as it was. *)
Theorem get_grouped_num_expressions_missing_column results l mapping group_labels
        normalize scaler h (pre : list string) k post :
  (normalize = true -> contains (deref h l) "Video" = false) ->
  (if normalize then deref h l ++ ["Video"] else deref h l)%list
  = (pre ++ k :: post)%list ->
  (forall c, In c pre -> column results c <> None) -> column results k = None ->
  get_grouped_num_expressions results (Some l) mapping group_labels normalize scaler h
  = (Raise (KeyError k), h).
Proof.
  intros Hvideo Hkeys Hpre Hk. unfold get_grouped_num_expressions.
  destruct normalize.
  - rewrite (Hvideo eq_refl). cbn [negb]. unfold groupby_apply.
    rewrite Hkeys, (groupby_missing _ _ _ _ Hpre Hk). reflexivity.
  - unfold groupby_apply. rewrite Hkeys, (groupby_missing _ _ _ _ Hpre Hk). reflexivity.
Qed.

Lemma get_grouped_num_expressions_missing_column_witness :
  get_grouped_num_expressions scenario_C (Some 1) None true true (Some MaxAbsScaler)
    caller_heap
  = (Raise (KeyError "Group"), caller_heap).
Proof.
  apply (get_grouped_num_expressions_missing_column scenario_C 1 None true true
           (Some MaxAbsScaler) caller_heap [] "Group" ["Subject"; "Video"]).
  - reflexivity.
  - reflexivity.
  - intros c [].
  - reflexivity.
Defined.

End GroupedCountMore.

(** ** Predictions *)

Section Predictions.

Lemma column_set_column_same d name v : column (set_column d name v) name = Some v.
Proof.
  induction d as [|[n c] d IH]; cbn [set_column column].
  - now rewrite String.eqb_refl.
  - destruct (String.eqb n name) eqn:Hn; cbn [column]; now rewrite Hn.
Qed.

Lemma column_set_column_other d name v other :
  other <> name -> column (set_column d name v) other = column d other.
Proof.
  intros Hne. induction d as [|[n c] d IH]; cbn [set_column column].
  - destruct (String.eqb name other) eqn:Hn; [|reflexivity].
    apply String.eqb_eq in Hn. congruence.
  - destruct (String.eqb n name) eqn:Hn; cbn [column].
    + apply String.eqb_eq in Hn. subst n.
      destruct (String.eqb name other) eqn:Ho; [|reflexivity].
      apply String.eqb_eq in Ho. congruence.
    + now rewrite IH.
Qed.

Lemma set_column_In d name v nc :
  In nc (set_column d name v) -> nc = (name, v) \/ In nc d.
Proof.
  induction d as [|[n c] d IH]; cbn [set_column]; intros H.
  - destruct H as [<-|[]]. now left.
  - destruct (String.eqb n name) eqn:Hn.
    + apply String.eqb_eq in Hn. subst n. destruct H as [<-|H]; [now left|right; now right].
    + destruct H as [<-|H]; [right; now left|].
      destruct (IH H) as [->|Hin]; [now left|right; now right].
Qed.

(** A frame with "pred" in front and all columns of length [n]. *)
Lemma set_column_pred_first p rest name v n :
  length p = n -> length v = n ->
  (forall nc, In nc (("pred", p) :: rest) -> length (snd nc) = n) ->
  exists p' rest',
    set_column (("pred", p) :: rest) name v = ("pred", p') :: rest' /\
    length p' = n /\
    forall nc, In nc (("pred", p') :: rest') -> length (snd nc) = n.
Proof.
  intros Hp Hv Hall.
  assert (Hall' : forall nc, In nc (set_column (("pred", p) :: rest) name v) ->
                             length (snd nc) = n).
  { intros nc Hnc. destruct (set_column_In _ _ _ _ Hnc) as [->|Hin]; [exact Hv|now apply Hall]. }
  cbn [set_column] in *. destruct (String.eqb "pred" name).
  - exists v, rest. auto.
  - exists p, (set_column rest name v). auto.
Qed.

Lemma prediction_dict_pred_first (info_results : list (string * list cell)) p rest :
  exists p' rest',
    fold_left (fun d nc => set_column d (fst nc) (snd nc)) info_results
              (("pred", p) :: rest)
    = ("pred", p') :: rest'.
Proof.
  revert p rest; induction info_results as [|nc l IH]; intros p rest;
    [exists p, rest; reflexivity|].
  cbn [fold_left set_column]. destruct (String.eqb "pred" (fst nc)); apply IH.
Qed.

Lemma fold_raise {A B : Type} (f : result A -> B -> result A) (l : list B) e :
  (forall b e', f (inl e') b = inl e') -> fold_left f l (inl e) = inl e.
Proof.
  intros Hf. induction l as [|b l IH]; [reflexivity|]. cbn [fold_left]. now rewrite Hf.
Qed.

Lemma assign_probas_pred_first (probas : list (nat * list Q)) p rest n out :
  length p = n ->
  (forall nc, In nc (("pred", p) :: rest) -> length (snd nc) = n) ->
  fold_left (fun acc ic =>
               df <- acc ;;
               assign_column df ("proba_" ++ str_of_nat (fst ic)) (map Float (snd ic)))
            probas (Ok (("pred", p) :: rest)) = Ok out ->
  exists p' rest',
    out = ("pred", p') :: rest' /\ length p' = n /\
    forall nc, In nc out -> length (snd nc) = n.
Proof.
  revert p rest; induction probas as [|[i cl] probas IH]; intros p rest Hp Hall Hrun.
  - inversion Hrun; subst out. eauto.
  - cbn [fold_left bind Ok fst snd] in Hrun. unfold assign_column in Hrun.
    cbn [nrows] in Hrun.
    destruct (Nat.eqb (length (map Float cl)) (length p)) eqn:Hlen.
    + apply Nat.eqb_eq in Hlen.
      destruct (set_column_pred_first p rest ("proba_" ++ str_of_nat i) (map Float cl) n
                  Hp ltac:(lia) Hall) as (p' & rest' & Hset & Hp' & Hall').
      rewrite Hset in Hrun. exact (IH _ _ Hp' Hall' Hrun).
    + rewrite fold_raise in Hrun by reflexivity. discriminate.
Qed.

(** The shape of what [generate_predictions] returns. *)
Lemma generate_predictions_shape features model info_columns out :
  generate_predictions features model info_columns = Ok out ->
  exists pred rest,
    out = ("pred", pred) :: rest /\
    forall nc, In nc out -> length (snd nc) = length pred.
Proof.
  unfold generate_predictions. intros Hrun.
  destruct (drop_columns features info_columns) as [e|test_X]; [discriminate|].
  cbn [bind] in Hrun.
  destruct (mapM _ info_columns) as [e|info_results]; [discriminate|].
  cbn [bind] in Hrun. unfold prediction_dict, frame_of_dict in Hrun.
  destruct (prediction_dict_pred_first info_results (predict model test_X) [])
    as (p & rest & Hdict).
  rewrite Hdict in Hrun. cbn [nrows] in Hrun.
  destruct (forallb _ _) eqn:Hall; [|discriminate]. cbn [bind Ok] in Hrun.
  rewrite forallb_forall in Hall.
  assert (Hlen : forall nc, In nc (("pred", p) :: rest) -> length (snd nc) = length p).
  { intros nc Hnc. apply Nat.eqb_eq. now apply Hall. }
  destruct (assign_probas_pred_first _ p rest (length p) out eq_refl Hlen Hrun) as
      (p' & rest' & -> & Hp' & Hall').
  exists p', rest'. split; [reflexivity|]. intros nc Hnc. rewrite Hp'. now apply Hall'.
Qed.


(** X21 (filtering the predictions): on the frame [generate_predictions]
    returns, if it has a row, [filter_predictions] sets to 0 the windows of
    the short expression segments in the column "pred" and changes nothing
    else. *)
Theorem filter_after_generate_predictions features model info_columns out
        window_threshold :
  generate_predictions features model info_columns = Ok out -> nrows out <> 0 ->
  exists pred rest rows pred',
    out = ("pred", pred) :: rest /\
    find_label_segments (PyDataFrame out) "pred" = Ok rows /\
    filter_predictions out window_threshold = Ok (("pred", pred') :: rest) /\
    length pred' = length pred /\
    forall i, i < length pred ->
      nth i pred' NaN
      = if short_expression rows window_threshold i then Int 0 else nth i pred NaN.
Proof.
  intros Hrun Hrows.
  destruct (generate_predictions_shape _ _ _ _ Hrun) as (pred & rest & -> & _).
  assert (Hne : pred <> []) by (intros ->; now apply Hrows).
  destruct (filter_predictions_pred_first pred rest window_threshold Hne)
    as (rows & pred' & H1 & H2 & H3 & H4).
  exists pred, rest, rows, pred'. auto.
Qed.

Lemma filter_after_generate_predictions_witness :
  exists pred rest rows pred',
    [("pred", [Int 1; Int 0; Int 0; Int 1; Int 1; Int 1]);
     ("Subject", [Int 7; Int 7; Int 7; Int 7; Int 7; Int 7]);
     ("Video", [Str "a"; Str "a"; Str "a"; Str "a"; Str "a"; Str "a"]);
     ("proba_0", [Float 0; Float 1; Float 1; Float 0; Float 0; Float 0]);
     ("proba_1", [Float 1; Float 0; Float 0; Float 1; Float 1; Float 1])]
    = ("pred", pred) :: rest /\
    find_label_segments
      (PyDataFrame
         [("pred", [Int 1; Int 0; Int 0; Int 1; Int 1; Int 1]);
          ("Subject", [Int 7; Int 7; Int 7; Int 7; Int 7; Int 7]);
          ("Video", [Str "a"; Str "a"; Str "a"; Str "a"; Str "a"; Str "a"]);
          ("proba_0", [Float 0; Float 1; Float 1; Float 0; Float 0; Float 0]);
          ("proba_1", [Float 1; Float 0; Float 0; Float 1; Float 1; Float 1])])
      "pred" = Ok rows /\
    filter_predictions
      [("pred", [Int 1; Int 0; Int 0; Int 1; Int 1; Int 1]);
       ("Subject", [Int 7; Int 7; Int 7; Int 7; Int 7; Int 7]);
       ("Video", [Str "a"; Str "a"; Str "a"; Str "a"; Str "a"; Str "a"]);
       ("proba_0", [Float 0; Float 1; Float 1; Float 0; Float 0; Float 0]);
       ("proba_1", [Float 1; Float 0; Float 0; Float 1; Float 1; Float 1])]
      2 = Ok (("pred", pred') :: rest) /\
    length pred' = length pred /\
    forall i, i < length pred ->
      nth i pred' NaN = if short_expression rows 2 i then Int 0 else nth i pred NaN.
Proof.
  apply (filter_after_generate_predictions example_features sign_classifier
           ["Subject"; "Video"]).
  - reflexivity.
  - discriminate.
Defined.

Lemma info_results_columns features info_columns info_results :
  mapM (fun col => match column features col with
                   | Some c => Ok (col, c)
                   | None => Raise (KeyError col)
                   end) info_columns = Ok info_results ->
  map fst info_results = info_columns /\
  Forall (fun nc => column features (fst nc) = Some (snd nc)) info_results.
Proof.
  revert info_results; induction info_columns as [|col l IH]; intros info_results Hrun.
  - inversion Hrun. split; [reflexivity|constructor].
  - cbn [mapM] in Hrun. destruct (column features col) as [c|] eqn:Hcol; [|discriminate].
    cbn [bind Ok] in Hrun.
    destruct (mapM _ l) as [e|rs]; [discriminate|]. cbn [bind Ok] in Hrun.
    inversion Hrun; subst info_results. destruct (IH rs eq_refl) as [Hfst Hall].
    split; [cbn [map fst]; now rewrite Hfst|]. constructor; [exact Hcol|exact Hall].
Qed.

Lemma prediction_dict_column features (info_results : list (string * list cell)) d col :
  Forall (fun nc => column features (fst nc) = Some (snd nc)) info_results ->
  In col (map fst info_results) ->
  column (fold_left (fun d nc => set_column d (fst nc) (snd nc)) info_results d) col
  = column features col.
Proof.
  revert d; induction info_results as [|nc l IH] using rev_ind; intros d Hall Hin;
    [contradiction|].
  rewrite fold_left_app. cbn [fold_left].
  apply Forall_app in Hall. destruct Hall as [Hl Hnc]. inversion Hnc as [|? ? Hcol _]; subst.
  destruct (String.eqb col (fst nc)) eqn:Heq.
  - apply String.eqb_eq in Heq. subst col. now rewrite column_set_column_same, Hcol.
  - apply String.eqb_neq in Heq. rewrite column_set_column_other by exact Heq.
    apply IH; [exact Hl|]. rewrite map_app in Hin. apply in_app_or in Hin.
    destruct Hin as [Hin|[Hin|[]]]; [exact Hin|congruence].
Qed.

Lemma assign_probas_column (probas : list (nat * list Q)) df out col :
  (forall i, col <> "proba_" ++ str_of_nat i) ->
  fold_left (fun acc ic =>
               df <- acc ;;
               assign_column df ("proba_" ++ str_of_nat (fst ic)) (map Float (snd ic)))
            probas (Ok df) = Ok out ->
  column out col = column df col.
Proof.
  intros Hname. revert df; induction probas as [|[i cl] probas IH]; intros df Hrun.
  - now inversion Hrun.
  - cbn [fold_left bind Ok fst snd] in Hrun. unfold assign_column in Hrun.
    destruct (Nat.eqb _ _).
    + rewrite (IH _ Hrun). now apply column_set_column_other.
    + rewrite fold_raise in Hrun by reflexivity. discriminate.
Qed.

(** X22 (info columns are carried over): when [generate_predictions]
    returns, every info column other than "pred" whose name is not that of a
    probability column holds in the result what it held in the features. *)
Theorem generate_predictions_info_columns features model info_columns out col :
  generate_predictions features model info_columns = Ok out ->
  In col info_columns -> col <> "pred" ->
  (forall i, col <> "proba_" ++ str_of_nat i) ->
  column features col <> None /\ column out col = column features col.
Proof.
  unfold generate_predictions. intros Hrun Hin Hpred Hname.
  destruct (drop_columns features info_columns) as [e|test_X]; [discriminate|].
  cbn [bind] in Hrun.
  destruct (mapM _ info_columns) as [e|info_results] eqn:Hinfo; [discriminate|].
  cbn [bind] in Hrun. destruct (info_results_columns _ _ _ Hinfo) as [Hfst Hall].
  unfold frame_of_dict in Hrun. destruct (forallb _ _); [|discriminate].
  cbn [bind Ok] in Hrun.
  rewrite (assign_probas_column _ _ _ _ Hname Hrun). unfold prediction_dict.
  rewrite (prediction_dict_column features) by (rewrite ?Hfst; assumption).
  split; [|reflexivity].
  rewrite <- Hfst in Hin. apply in_map_iff in Hin. destruct Hin as (nc & <- & Hnc).
  rewrite Forall_forall in Hall. rewrite (Hall nc Hnc). discriminate.
Qed.

Lemma generate_predictions_info_columns_witness :
  column example_features "Video" <> None /\
  column [("pred", [Int 1; Int 0; Int 0; Int 1; Int 1; Int 1]);
          ("Subject", [Int 7; Int 7; Int 7; Int 7; Int 7; Int 7]);
          ("Video", [Str "a"; Str "a"; Str "a"; Str "a"; Str "a"; Str "a"]);
          ("proba_0", [Float 0; Float 1; Float 1; Float 0; Float 0; Float 0]);
          ("proba_1", [Float 1; Float 0; Float 0; Float 1; Float 1; Float 1])] "Video"
  = column example_features "Video".
Proof.
  apply (generate_predictions_info_columns example_features sign_classifier
           ["Subject"; "Video"]).
  - reflexivity.
  - right; now left.
  - discriminate.
  - intros i. discriminate.
Defined.

End Predictions.

(** ** Filtering twice *)

Section FilterTwice.




Lemma existsb_false {A : Type} (f : A -> bool) l x :
  existsb f l = false -> In x l -> f x = false.
Proof.
  intros Hex Hx. destruct (f x) eqn:Hfx; [|reflexivity].
  assert (existsb f l = true) by (apply existsb_exists; eauto). congruence.
Qed.





End FilterTwice.

(** ** The grouped count without normalization *)

Section GroupedRuns.

Lemma key_same_refl k : key_same k k = true.
Proof.
  induction k as [|x k IH]; [reflexivity|]. cbn [key_same].
  now rewrite cell_same_refl, IH.
Qed.

Lemma key_same_trans a b c :
  key_same a b = true -> key_same b c = true -> key_same a c = true.
Proof.
  revert b c; induction a as [|x a IH]; intros [|y b] [|z c]; cbn [key_same];
    try discriminate; try reflexivity.
  intros Hab Hbc. apply andb_true_iff in Hab. apply andb_true_iff in Hbc.
  destruct Hab as [Hxy Hab]. destruct Hbc as [Hyz Hbc].
  rewrite (cell_same_trans _ _ _ Hxy Hyz). now rewrite (IH _ _ Hab Hbc).
Qed.


Lemma group_by_nonempty {A : Type} (key_of : A -> list cell) (rows : list A) r :
  In r rows -> key_missing (key_of r) = false ->
  group_by key_same key_leb key_missing key_of rows <> [].
Proof.
  intros Hr Hmiss. unfold group_by, group_keys.
  destruct (unique_by_repr key_same
              (filter (fun k => negb (key_missing k)) (map key_of rows))
              key_same_refl key_same_trans (key_of r)) as (k & Hk & _).
  - apply filter_In. split; [now apply in_map|]. now rewrite Hmiss.
  - apply (sort_In key_leb) in Hk.
    destruct (sort key_leb _); [contradiction|discriminate].
Qed.



Lemma columns_concat_frames f0 frames :
  columns (concat_frames (f0 :: frames)) = columns f0.
Proof.
  unfold concat_frames, columns at 1. rewrite map_map. cbn [fst]. apply map_id.
Qed.





End GroupedRuns.

(** ** Normalization without a scaler *)

Section NoScaler.

Lemma mapM_Forall2 {A B : Type} (F : A -> result B) (l : list A) ys :
  mapM F l = Ok ys -> Forall2 (fun x y => F x = Ok y) l ys.
Proof.
  revert ys; induction l as [|x l IH]; intros ys H; cbn [mapM] in H.
  - inversion H. constructor.
  - destruct (F x) as [e|y] eqn:Hx; [discriminate|]. cbn [bind Ok] in H.
    destruct (mapM F l) as [e|ys'] eqn:Hl; [discriminate|]. cbn [bind Ok] in H.
    inversion H. constructor; [exact Hx|now apply IH].
Qed.

Lemma group_by_not_missing {A : Type} (key_of : A -> list cell) (rows : list A) k g :
  In (k, g) (group_by key_same key_leb key_missing key_of rows) ->
  key_missing k = false.
Proof.
  unfold group_by, group_keys. intros H. apply in_map_iff in H.
  destruct H as (k' & Heq & Hk'). inversion Heq; subst k'.
  apply sort_In, unique_by_In, filter_In in Hk'. destruct Hk' as [_ Hk'].
  now destruct (key_missing k).
Qed.

Lemma groupby_keys data keys groups kf :
  groupby data keys = Ok groups -> In kf groups -> key_missing (fst kf) = false.
Proof.
  unfold groupby. destruct keys as [|k0 keys]; [discriminate|].
  destruct (get_columns data (k0 :: keys)) as [e|cols]; [discriminate|].
  cbn [bind Ok]. intros H Hkf. inversion H; subst groups.
  apply in_map_iff in Hkf. destruct Hkf as ([k g] & <- & Hkg).
  exact (group_by_not_missing _ _ _ _ Hkg).
Qed.

Lemma get_num_expressions_one_row results mapping r :
  get_num_expressions results mapping false = Ok r ->
  exists n, r = [("expression_count", [Int n])].
Proof.
  unfold get_num_expressions.
  destruct (find_label_segments (PyDataFrame results) "pred"); [discriminate|].
  cbn [bind Ok]. intros H. inversion H. eauto.
Qed.

Lemma column_names_map (G : string -> list cell) names name c :
  column (map (fun n => (n, G n)) names) name = Some c -> c = G name.
Proof.
  induction names as [|n names IH]; cbn [map column fst snd]; [discriminate|].
  destruct (String.eqb n name) eqn:Hn; [|exact IH].
  apply String.eqb_eq in Hn. subst n. intros H. now inversion H.
Qed.

Lemma column_In df name c : column df name = Some c -> In name (columns df).
Proof.
  induction df as [|[n c'] df IH]; cbn [column columns map fst snd]; [discriminate|].
  destruct (String.eqb n name) eqn:Hn; [apply String.eqb_eq in Hn; now left|].
  intros H. right. exact (IH H).
Qed.

Lemma In_column df name : In name (columns df) -> exists c, column df name = Some c.
Proof.
  induction df as [|[n c'] df IH]; cbn [column columns map fst snd]; [intros []|].
  destruct (String.eqb n name) eqn:Hn; [eauto|].
  intros [Heq|Hin]; [|exact (IH Hin)].
  subst n. now rewrite String.eqb_refl in Hn.
Qed.

(** A column of concatenated frames starts with that column of the first
    frame. *)
Lemma column_concat_frames f0 frames name c :
  column (concat_frames (f0 :: frames)) name = Some c ->
  exists c0 rest, column f0 name = Some c0 /\ c = (c0 ++ rest)%list.
Proof.
  intros H. assert (Hin : In name (columns f0)).
  { apply column_In in H. now rewrite columns_concat_frames in H. }
  destruct (In_column _ _ Hin) as (c0 & Hc0).
  unfold concat_frames in H. apply column_names_map in H.
  cbn [flat_map] in H. rewrite Hc0 in H. eauto.
Qed.

(** The columns that [reset_index] puts in front of a one-row result hold the
    values of the group's key. *)
Lemma column_keyed_row keys k n name c :
  column (key_columns keys k 1 ++ [("expression_count", [Int n])])%list name = Some c ->
  (exists v, In v k /\ c = [v]) \/ c = [Int n].
Proof.
  unfold key_columns. revert k; induction keys as [|x keys IH]; intros k.
  - cbn [combine map app column fst snd].
    destruct (String.eqb "expression_count" name); [|discriminate].
    intros H. right. now inversion H.
  - destruct k as [|v k].
    + cbn [combine map app column fst snd].
      destruct (String.eqb "expression_count" name); [|discriminate].
      intros H. right. now inversion H.
    + cbn [combine map app column fst snd].
      destruct (String.eqb x name).
      * intros H. inversion H. left. exists v. split; [now left|reflexivity].
      * intros H. destruct (IH k H) as [(w & Hw & Hc)|Hc]; [|now right].
        left. exists w. split; [now right|exact Hc].
Qed.

Lemma nrows_keyed_rows keys k n frames :
  0 < nrows (concat_frames
               ((key_columns keys k 1 ++ [("expression_count", [Int n])])%list :: frames)).
Proof.
  unfold concat_frames, key_columns.
  destruct (combine keys k) as [|[a b] l];
    cbn [map app columns fst snd nrows flat_map column];
    rewrite String.eqb_refl, length_app; cbn [repeat length]; lia.
Qed.

(** What the grouped total count hands to the normalization: a table with at
    least one row in which no value of a key column is missing. *)
Lemma groupby_apply_total results keys mapping grouped :
  groupby_apply results keys (fun x => get_num_expressions x mapping false) = Ok grouped ->
  exists k n frames,
    key_missing k = false /\
    grouped = concat_frames
                ((key_columns keys k 1 ++ [("expression_count", [Int n])])%list :: frames).
Proof.
  unfold groupby_apply.
  destruct (groupby results keys) as [e|groups] eqn:Hgroups; [discriminate|].
  cbn [bind Ok].
  destruct (mapM _ groups) as [e|applied] eqn:Happlied; [discriminate|].
  cbn [bind Ok]. apply mapM_Forall2 in Happlied.
  destruct Happlied as [|kf [k r] groups' applied' Hrun _]; [discriminate|].
  intros H. inversion H; clear H.
  destruct (get_num_expressions (snd kf) mapping false) as [e|r'] eqn:Hr; [discriminate|].
  cbn [bind Ok] in Hrun. inversion Hrun; subst k r'.
  destruct (get_num_expressions_one_row _ _ _ Hr) as (n & ->).
  exists (fst kf), n. eexists. split.
  - apply (groupby_keys _ _ _ _ Hgroups). now left.
  - cbn [map fst snd nrows length]. reflexivity.
Qed.

Lemma normalize_data_no_scaler keys k n frames data_cols fit_all_cols :
  key_missing k = false ->
  exists e,
    normalize_data
      (concat_frames
         ((key_columns keys k 1 ++ [("expression_count", [Int n])])%list :: frames))
      None ["Subject"] data_cols fit_all_cols = Raise e.
Proof.
  intros Hk. set (grouped := concat_frames _).
  unfold normalize_data, groupby, get_columns. cbn [mapM].
  destruct (column grouped "Subject") as [c|] eqn:Hc; [|eexists; reflexivity].
  cbn [bind Ok mapM].
  set (key_of := fun i : nat => map (fun c0 : list cell => nth i c0 NaN) [c]).
  destruct (group_by key_same key_leb key_missing key_of (seq 0 (nrows grouped)))
    as [|g gs] eqn:Hg.
  - exfalso. revert Hg. apply (group_by_nonempty key_of _ 0).
    + apply in_seq. pose proof (nrows_keyed_rows keys k n frames). fold grouped in H. lia.
    + destruct (column_concat_frames _ _ _ _ Hc) as (c0 & rest & Hc0 & ->).
      destruct (column_keyed_row _ _ _ _ _ Hc0) as [(v & Hv & ->)| ->];
        unfold key_of, key_missing; cbn [map app nth existsb]; [|reflexivity].
      now rewrite (existsb_false _ _ _ Hk Hv).
  - cbn [map mapM normalize_group bind]. eexists; reflexivity.
Qed.

(** X25 (the default scaler): with [normalize=True] and the total count
    ([group_labels=False]), a call that leaves [scaler] at its default [None]
    never returns a table, whatever the predictions and the grouping key: it
    raises, at the latest when the first group is normalized, and changes no
    list. *)
Theorem normalize_needs_scaler results grouping_columns mapping h :
  exists e,
    get_grouped_num_expressions results grouping_columns mapping false true None h
    = (Raise e, h).
Proof.
  unfold get_grouped_num_expressions.
  set (l := match grouping_columns with Some l => l | None => default_grouping_columns end).
  destruct (negb (contains (deref h l) "Video")); [|eexists; reflexivity].
  destruct (groupby_apply results (deref h l ++ ["Video"])%list
              (fun x => get_num_expressions x mapping false)) as [e|grouped] eqn:Hgrouped.
  - exists e. reflexivity.
  - destruct (groupby_apply_total _ _ _ _ Hgrouped) as (k & n & frames & Hk & ->).
    destruct (normalize_data_no_scaler (deref h l ++ ["Video"])%list k n frames
                ["expression_count"] false Hk) as (e & He).
    exists e. cbn [bind]. rewrite He. reflexivity.
Qed.

End NoScaler.
